(** * Verification of the photo compression batch (compress_photos.py)

    The development embeds [compress_images] and the Python and Pillow
    primitives it calls, then settles the properties claimed of the
    Enumerator, ColorNormalizer, Resizer, Encoder, SizeAccountant,
    ErrorIsolator and Reporter. *)

From Stdlib Require Import ZArith Lia Bool Ascii String.
From Stdlib Require PrimFloat FloatOps SpecFloat Uint63.
From stdpp Require Import gmap strings list sorting.

Local Open Scope Z_scope.

(** ** Python strings *)

Module Py.

(** [s[i:]] for [0 <= i] *)
Fixpoint drop_str (n : nat) (s : string) : string :=
  match n, s with
  | O, _ => s
  | S n', String _ t => drop_str n' t
  | S _, EmptyString => EmptyString
  end.

(** [s[:i]] for [0 <= i] *)
Fixpoint take_str (n : nat) (s : string) : string :=
  match n, s with
  | O, _ => EmptyString
  | S n', String a t => String a (take_str n' t)
  | S _, EmptyString => EmptyString
  end.

(** [s[i:i+1]]: the empty string when [i] is out of range *)
Definition char_at (s : string) (i : Z) : string :=
  if i <? 0 then EmptyString else take_str 1 (drop_str (Z.to_nat i) s).

(** [s.endswith(suffix)] for a single suffix *)
Definition endswith1 (s suffix : string) : bool :=
  (String.length suffix <=? String.length s)%nat
  && String.eqb (drop_str (String.length s - String.length suffix) s) suffix.

(** [s.endswith(suffixes)] for a tuple of suffixes *)
Definition endswith (s : string) (suffixes : list string) : bool :=
  existsb (endswith1 s) suffixes.

(** [s.rfind(c)] for a one-character needle: highest index, or -1 *)
Fixpoint rfind (s : string) (c : ascii) : Z :=
  match s with
  | EmptyString => -1
  | String a t =>
      let r := rfind t c in
      if 0 <=? r then r + 1 else if Ascii.eqb a c then 0 else -1
  end.

(** The [while filenameIndex < dotIndex] loop of [genericpath._splitext]:
    [true] when a character other than the extension separator occurs at
    an index in [filenameIndex, filenameIndex + steps). *)
Fixpoint splitext_scan (p : string) (filenameIndex : Z) (steps : nat) : bool :=
  match steps with
  | O => false
  | S k =>
      if negb (String.eqb (char_at p filenameIndex) ".") then true
      else splitext_scan p (filenameIndex + 1) k
  end.

(** [os.path.splitext(p)] (posixpath: sep "/", no altsep, extsep ".") *)
Definition splitext (p : string) : string * string :=
  let sepIndex := rfind p "/" in
  let dotIndex := rfind p "." in
  if (sepIndex <? dotIndex)
     && splitext_scan p (sepIndex + 1) (Z.to_nat (dotIndex - (sepIndex + 1)))
  then (take_str (Z.to_nat dotIndex) p, drop_str (Z.to_nat dotIndex) p)
  else (p, EmptyString).

(** [s.lower()] on ASCII letters *)
Definition lower_ascii (a : ascii) : ascii :=
  let n := nat_of_ascii a in
  if ((65 <=? n) && (n <=? 90))%nat then ascii_of_nat (n + 32) else a.

Fixpoint lower (s : string) : string :=
  match s with
  | EmptyString => EmptyString
  | String a t => String (lower_ascii a) (lower t)
  end.

End Py.

(** ** Enumerator (lines 24-28) *)

Definition image_extensions : list string :=
  [".jpg"; ".jpeg"; ".png"; ".JPG"; ".JPEG"; ".PNG"].

(** [[f for f in names if f.endswith(image_extensions)]] *)
Definition image_files (names : list string) : list string :=
  List.filter (fun f => Py.endswith f image_extensions) names.

(** The reading of the specification: the extension of the name, taken
    case-insensitively, is one of jpg, jpeg, png. *)
Definition extension_ci_in_set (f : string) : bool :=
  existsb (String.eqb (Py.lower (snd (Py.splitext f)))) [".jpg"; ".jpeg"; ".png"].

(** ** Python floats

    A Python [float] is an IEEE 754 binary64 number.  The quantities of
    this program (pixel counts, byte counts, their quotients and
    percentages) stay far inside the exponent range, so a float is
    modelled by its value [mant * 2^expo] with a significand of at most 53
    bits, and every operation is the exact operation followed by rounding
    to nearest, ties to even. *)

Module Float.

Record float := mk { mant : Z; expo : Z }.

Definition zero : float := mk 0 0.

(** Nearest integer to [p / q], ties to even, for [0 <= p] and [0 < q]. *)
Definition round_half_even (p q : Z) : Z :=
  let d := p / q in
  let r := p mod q in
  match 2 * r ?= q with
  | Lt => d
  | Gt => d + 1
  | Eq => if Z.even d then d else d + 1
  end.

(** The binary64 number nearest to the rational [p / q], for [0 < q]. *)
Definition rnd (p q : Z) : float :=
  if p =? 0 then zero else
  let a := Z.abs p in
  let k := Z.log2 a - Z.log2 q in
  let above := if 0 <=? k then q * 2 ^ k <=? a else q <=? a * 2 ^ (- k) in
  let e := if above then k - 52 else k - 53 in
  let m := if 0 <=? e then round_half_even a (q * 2 ^ e)
           else round_half_even (a * 2 ^ (- e)) q in
  if m =? 2 ^ 53 then mk (Z.sgn p * 2 ^ 52) (e + 1) else mk (Z.sgn p * m) e.

(** Rounding of the dyadic number [m * 2^e]. *)
Definition rnd_dyadic (m e : Z) : float :=
  if 0 <=? e then rnd (m * 2 ^ e) 1 else rnd m (2 ^ (- e)).

(** [float(n)] *)
Definition of_int (n : Z) : float := rnd n 1.

(** [a / b] on two ints, [b <> 0]: the correctly rounded quotient. *)
Definition truediv (a b : Z) : float :=
  if 0 <? b then rnd a b else rnd (- a) (- b).

(** [x * y] *)
Definition mul (x y : float) : float :=
  rnd_dyadic (mant x * mant y) (expo x + expo y).

(** [x - y] *)
Definition sub (x y : float) : float :=
  let e := Z.min (expo x) (expo y) in
  rnd_dyadic (mant x * 2 ^ (expo x - e) - mant y * 2 ^ (expo y - e)) e.

(** [x / y] on two floats, [y] not zero *)
Definition div (x y : float) : float :=
  let d := expo x - expo y in
  let p := if 0 <=? d then mant x * 2 ^ d else mant x in
  let q := if 0 <=? d then mant y else mant y * 2 ^ (- d) in
  if 0 <? q then rnd p q else rnd (- p) (- q).

(** [int(x)]: truncation toward zero *)
Definition to_int (x : float) : Z :=
  if 0 <=? expo x then mant x * 2 ^ expo x
  else Z.quot (mant x) (2 ^ (- expo x)).

End Float.

(** ** Exceptions

    The exception classes that the primitives below raise.  All of them
    derive from [Exception]. *)

Inductive exn :=
| FileNotFoundError (path : string)
| NotADirectoryError (path : string)
| PermissionError (path : string)
| FileExistsError (path : string)
| UnidentifiedImageError (path : string)
| OSError (msg : string)
| ValueError (msg : string)
| IndexError (msg : string)
| ZeroDivisionError (msg : string)
| UnicodeEncodeError (msg : string)
| BrokenPipeError (msg : string).

(** The two [except] clauses of the program. *)
Inductive except_clause := ExceptFileNotFoundError | ExceptException.

Definition catches (c : except_clause) (e : exn) : bool :=
  match c, e with
  | ExceptException, _ => true
  | ExceptFileNotFoundError, FileNotFoundError _ => true
  | ExceptFileNotFoundError, _ => false
  end.

(** ** Pillow images

    The program never looks at a pixel: it decides which Pillow operations
    are applied.  The pixel content of an image is therefore kept as the
    term of the operations that produced it. *)

Inductive resampling := NEAREST | BOX | BILINEAR | HAMMING | BICUBIC | LANCZOS.

Inductive pixels :=
| Stored (id : N)
| Fill (r g b : Z)
| Convert (mode : string) (p : pixels)
| Band (index : nat) (p : pixels)
| Paste (canvas im : pixels)
| PasteMask (canvas im mask : pixels)
| Resize (w h : Z) (f : resampling) (p : pixels)
| Jpeg (quality : Z) (optimize : bool) (p : pixels).

Record image := mk_image
  { mode : string; width : Z; height : Z; px : pixels }.

Definition size_eqb (a b : image) : bool :=
  (width a =? width b) && (height a =? height b).

Module PIL.

(** [Image.new(mode, size, color)] *)
Definition new (m : string) (w h : Z) (color : Z * Z * Z) : image :=
  let '(r, g, b) := color in mk_image m w h (Fill r g b).

(** [im.convert(mode)] *)
Definition convert (im : image) (m : string) : image :=
  mk_image m (width im) (height im) (Convert m (px im)).

(** [len(im.getbands())] *)
Definition band_count (m : string) : nat :=
  if existsb (String.eqb m) ["RGBA"; "CMYK"; "RGBX"; "RGBa"] then 4
  else if existsb (String.eqb m) ["RGB"; "YCbCr"; "LAB"; "HSV"] then 3
  else if existsb (String.eqb m) ["LA"; "PA"; "La"] then 2
  else 1.

(** [im.split()]: one single-band image per band *)
Definition split (im : image) : list image :=
  if (band_count (mode im) =? 1)%nat then [im]
  else List.map (fun i => mk_image "L" (width im) (height im) (Band i (px im)))
                (seq 0 (band_count (mode im))).

(** [t[-1]] *)
Definition last_item (t : list image) : exn + image :=
  match List.rev t with
  | [] => inl (IndexError "tuple index out of range")
  | x :: _ => inr x
  end.

(** [canvas.paste(im, mask=mask)]: the box is the whole of [im] at the
    origin; a mask of another size than [im] is refused. *)
Definition paste (canvas im : image) (mask : option image) : exn + image :=
  match mask with
  | Some k =>
      if size_eqb k im
      then inr (mk_image (mode canvas) (width canvas) (height canvas)
                         (PasteMask (px canvas) (px im) (px k)))
      else inl (ValueError "images do not match")
  | None =>
      inr (mk_image (mode canvas) (width canvas) (height canvas)
                    (Paste (px canvas) (px im)))
  end.

(** The filter that [im.resize] resamples with when it is asked for [f]:
    [if self.mode in ("1", "P"): resample = Resampling.NEAREST]. *)
Definition applied_filter (m : string) (f : resampling) : resampling :=
  if existsb (String.eqb m) ["1"; "P"] then NEAREST else f.

(** [im.resize((w, h), f)]: an unchanged size gives a copy, a size with a
    dimension below 1 is refused, and a picture in mode 1 or P is
    resampled with NEAREST whatever filter was asked for. *)
Definition resize (im : image) (w h : Z) (f : resampling) : exn + image :=
  if (width im =? w) && (height im =? h) then inr im
  else if (w <? 1) || (h <? 1)
  then inl (ValueError "height and width must be > 0")
  else inr (mk_image (mode im) w h
                     (Resize w h (applied_filter (mode im) f) (px im))).

End PIL.

(** ** File system

    A directory is looked up by the path the program was given; its
    entries are kept in the order [os.listdir] returns them.  A file
    records what [os.path.getsize] and [Image.open] find in it: its size
    in bytes, and the picture it decodes to or the exception that reading
    it as a picture raises. *)

Record file := mk_file { f_size : Z; f_picture : exn + image }.

Inductive node :=
| NotDir
| Dir (listable : bool) (entries : list (string * file)).

(** [entries[name] = f]: replace in place, or append. *)
Fixpoint write_entry (name : string) (f : file) (es : list (string * file))
  : list (string * file) :=
  match es with
  | [] => [(name, f)]
  | (n, g) :: rest =>
      if String.eqb n name then (n, f) :: rest
      else (n, g) :: write_entry name f rest
  end.

Fixpoint find_entry (name : string) (es : list (string * file)) : option file :=
  match es with
  | [] => None
  | (n, g) :: rest => if String.eqb n name then Some g else find_entry name rest
  end.

(** [os.path.join(folder, name)], used in messages *)
Definition os_path_join (a b : string) : string :=
  if String.eqb (Py.take_str 1 b) "/" then b
  else if String.eqb a "" || Py.endswith1 a "/" then a +:+ b
  else a +:+ "/" +:+ b.

(** ** Standard output

    One constructor per [print] call; the values are those handed to the
    format string, before their rendering with [:.2f] or [:.1f]. *)

Inductive line :=
| PrintFolderNotFound (input_folder : string)
| PrintNoImageFiles (input_folder : string)
| PrintCompressing (count : nat) (input_folder : string)
| PrintOutputFolder (output_folder : string)
| PrintSettings (max_width quality : Z)
| PrintFileName (i count : nat) (filename : string)
| PrintFileSizes (original_mb compressed_mb reduction : Float.float)
| PrintFileError (i count : nat) (filename : string) (e : exn)
| PrintRule
| PrintComplete
| PrintTotalOriginal (mb : Float.float)
| PrintTotalCompressed (mb : Float.float)
| PrintTotalSaved (mb : Float.float)
| PrintOverallReduction (percent : Float.float)
| PrintSavedTo (output_folder : string).

(** ** File results

    What one iteration of the loop reports: the two sizes of a success, or
    the exception of a failure. *)

Inductive file_result :=
| Success (filename : string) (original_size compressed_size : Z)
| Error (filename : string) (e : exn).

Definition result_name (r : file_result) : string :=
  match r with Success f _ _ => f | Error f _ => f end.

Definition is_success (r : file_result) : bool :=
  match r with Success _ _ _ => true | Error _ _ => false end.

Definition original_of (r : file_result) : Z :=
  match r with Success _ o _ => o | Error _ _ => 0 end.

Definition compressed_of (r : file_result) : Z :=
  match r with Success _ _ c => c | Error _ _ => 0 end.

(** Sum of a size over the successful results. *)
Definition sum_over_successes (size : file_result -> Z) (rs : list file_result) : Z :=
  fold_right Z.add 0 (List.map size (List.filter is_success rs)).

(** ** Program state and its monad

    The state holds the file system, the lines printed so far and the two
    running totals of [compress_images]; a computation returns a value or
    raises, and the state changes made before a raise persist. *)

Record state := mk_state
  { fs : gmap string node;
    stdout : list line;
    total_original_size : Z;
    total_compressed_size : Z }.

Definition M (A : Type) : Type := state -> state * (exn + A).

Definition ret {A} (a : A) : M A := fun s => (s, inr a).
Definition raise {A} (e : exn) : M A := fun s => (s, inl e).
Definition bind {A B} (c : M A) (k : A -> M B) : M B :=
  fun s => match c s with
           | (s', inr a) => k a s'
           | (s', inl e) => (s', inl e)
           end.
Definition lift {A} (r : exn + A) : M A :=
  match r with inl e => raise e | inr a => ret a end.

(** [try: body  except clause as e: handler e] *)
Definition try_except {A} (body : M A) (c : except_clause) (handler : exn -> M A)
  : M A :=
  fun s => match body s with
           | (s', inl e) => if catches c e then handler e s' else (s', inl e)
           | r => r
           end.

Declare Scope py_scope.
Delimit Scope py_scope with py.
Notation "x <- c ;; k" := (bind c (fun x => k))
  (at level 100, c at next level, right associativity) : py_scope.
Notation "c ;;; k" := (bind c (fun _ => k))
  (at level 100, right associativity) : py_scope.
Local Open Scope py_scope.

(** State updates: a line printed, the file system replaced, a size added
    to a running total. *)
Definition printed (l : line) (s : state) : state :=
  mk_state (fs s) (stdout s ++ [l]) (total_original_size s)
           (total_compressed_size s).

Definition with_fs (m : gmap string node) (s : state) : state :=
  mk_state m (stdout s) (total_original_size s) (total_compressed_size s).

Definition counted_original (n : Z) (s : state) : state :=
  mk_state (fs s) (stdout s) (total_original_size s + n)
           (total_compressed_size s).

Definition counted_compressed (n : Z) (s : state) : state :=
  mk_state (fs s) (stdout s) (total_original_size s)
           (total_compressed_size s + n).

Definition print (l : line) : M unit := fun s => (printed l s, inr tt).
Definition get_fs : M (gmap string node) := fun s => (s, inr (fs s)).
Definition put_fs (m : gmap string node) : M unit :=
  fun s => (with_fs m s, inr tt).

(** ** Operating system and Pillow calls on the state *)

(** [os.makedirs(path, exist_ok=True)] *)
Definition os_makedirs (path : string) : M unit :=
  m <- get_fs ;;
  match m !! path with
  | None => put_fs (<[path := Dir true []]> m)
  | Some (Dir _ _) => ret tt
  | Some NotDir => raise (FileExistsError path)
  end.

(** [os.listdir(path)] *)
Definition os_listdir (path : string) : M (list string) :=
  m <- get_fs ;;
  match m !! path with
  | None => raise (FileNotFoundError path)
  | Some NotDir => raise (NotADirectoryError path)
  | Some (Dir false _) => raise (PermissionError path)
  | Some (Dir true es) => ret (List.map fst es)
  end.

(** The file that [os.path.join(folder, name)] names. *)
Definition lookup_file (folder name : string) : M file :=
  m <- get_fs ;;
  match m !! folder with
  | None => raise (FileNotFoundError (os_path_join folder name))
  | Some NotDir => raise (NotADirectoryError (os_path_join folder name))
  | Some (Dir _ es) =>
      match find_entry name es with
      | None => raise (FileNotFoundError (os_path_join folder name))
      | Some f => ret f
      end
  end.

(** [os.path.getsize(os.path.join(folder, name))] *)
Definition os_path_getsize (folder name : string) : M Z :=
  f <- lookup_file folder name ;; ret (f_size f).

(** [Image.open(os.path.join(folder, name))] *)
Definition Image_open (folder name : string) : M image :=
  f <- lookup_file folder name ;; lift (f_picture f).

(** [a / b] on two ints *)
Definition truediv (a b : Z) : M Float.float :=
  if b =? 0 then raise (ZeroDivisionError "division by zero")
  else ret (Float.truediv a b).

(** [n / 1024 / 1024] *)
Definition megabytes (n : Z) : Float.float :=
  Float.div (Float.truediv n 1024) (Float.of_int 1024).

(** [(1 - a / b) * 100] *)
Definition percent_reduction (a b : Z) : M Float.float :=
  q <- truediv a b ;;
  ret (Float.mul (Float.sub (Float.of_int 1) q) (Float.of_int 100)).

(** The mode in which Pillow reads back a JPEG that was written from a
    picture in mode [m]: the writer stores mode 1 as greyscale and RGBX
    and YCbCr as three colour components, and the reader delivers one
    component as L, three as RGB and four as CMYK. *)
Definition jpeg_mode (m : string) : string :=
  if String.eqb m "1" then "L"
  else if existsb (String.eqb m) ["RGBX"; "YCbCr"] then "RGB"
  else m.

(** The picture that Pillow reads back from the file a save wrote. *)
Definition saved_picture (img : image) (q : Z) (o : bool) : image :=
  mk_image (jpeg_mode (mode img)) (width img) (height img) (Jpeg q o (px img)).

Section Compress.

(** The JPEG encoder of Pillow: the size in bytes of the stream it writes
    for an image at a quality, or the exception it raises. *)
Variable jpeg_encode : image -> Z -> bool -> exn + Z.

(** [img.save(os.path.join(folder, name), 'JPEG', quality=q, optimize=o)] *)
Definition Image_save (img : image) (folder name : string) (q : Z) (o : bool)
  : M unit :=
  m <- get_fs ;;
  match m !! folder with
  | None => raise (FileNotFoundError (os_path_join folder name))
  | Some NotDir => raise (NotADirectoryError (os_path_join folder name))
  | Some (Dir l es) =>
      n <- lift (jpeg_encode img q o) ;;
      let written := mk_file n (inr (saved_picture img q o)) in
      put_fs (<[folder := Dir l (write_entry name written es)]> m)
  end.

(** Lines 56-61: flatten alpha and palette modes onto white. *)
Definition normalize (img : image) : M image :=
  if existsb (String.eqb (mode img)) ["RGBA"; "LA"; "P"] then
    let background := PIL.new "RGB" (width img) (height img) (255, 255, 255) in
    let img := if String.eqb (mode img) "P" then PIL.convert img "RGBA" else img in
    mask <- (if String.eqb (mode img) "RGBA"
             then b <- lift (PIL.last_item (PIL.split img)) ;; ret (Some b)
             else ret None) ;;
    lift (PIL.paste background img mask)
  else ret img.

(** Line 66: [int(img.height * ratio)] *)
Definition scaled_height (h : Z) (ratio : Float.float) : Z :=
  Float.to_int (Float.mul (Float.of_int h) ratio).

(** Lines 64-67: shrink to [max_width] when wider. *)
Definition resizer (max_width : Z) (img : image) : M image :=
  if max_width <? width img then
    ratio <- truediv max_width (width img) ;;
    let new_height := scaled_height (height img) ratio in
    lift (PIL.resize img max_width new_height LANCZOS)
  else ret img.

(** Line 71 *)
Definition output_name (filename : string) : string :=
  fst (Py.splitext filename) +:+ ".jpg".

Definition add_original (n : Z) : M unit :=
  fun s => (counted_original n s, inr tt).

Definition add_compressed (n : Z) : M unit :=
  fun s => (counted_compressed n s, inr tt).

Definition reset_totals : M unit :=
  fun s => (mk_state (fs s) (stdout s) 0 0, inr tt).

Definition get_totals : M (Z * Z) :=
  fun s => (s, inr (total_original_size s, total_compressed_size s)).

(** Lines 50-83: the body of the [try].  Its value is the pair of sizes it
    measured, which is what the success line reports. *)
Definition pipeline (input_folder output_folder : string) (max_width quality : Z)
    (i count : nat) (filename : string) : M (Z * Z) :=
  img <- Image_open input_folder filename ;;
  original_size <- os_path_getsize input_folder filename ;;
  add_original original_size ;;;
  img <- normalize img ;;
  img <- resizer max_width img ;;
  let output_filename := output_name filename in
  Image_save img output_folder output_filename quality true ;;;
  compressed_size <- os_path_getsize output_folder output_filename ;;
  add_compressed compressed_size ;;;
  reduction <- percent_reduction compressed_size original_size ;;
  print (PrintFileName i count filename) ;;;
  print (PrintFileSizes (megabytes original_size) (megabytes compressed_size)
                        reduction) ;;;
  ret (original_size, compressed_size).

(** Lines 48-86: one iteration of the loop, with the FileResult it
    reported. *)
Definition process_file (input_folder output_folder : string)
    (max_width quality : Z) (i count : nat) (filename : string) : M file_result :=
  try_except
    (sizes <- pipeline input_folder output_folder max_width quality i count
                       filename ;;
     ret (Success filename (fst sizes) (snd sizes)))
    ExceptException
    (fun e => print (PrintFileError i count filename e) ;;;
              ret (Error filename e)).

(** Lines 44-86: [for i, filename in enumerate(files, 1)], from index [i];
    the value is the sequence of FileResults, in processing order. *)
Fixpoint for_files (input_folder output_folder : string) (max_width quality : Z)
    (i count : nat) (files : list string) : M (list file_result) :=
  match files with
  | [] => ret []
  | filename :: rest =>
      r <- process_file input_folder output_folder max_width quality i count
                        filename ;;
      rs <- for_files input_folder output_folder max_width quality (S i) count
                      rest ;;
      ret (r :: rs)
  end.

(** Lines 88-96 *)
Definition summary (output_folder : string) : M unit :=
  print PrintRule ;;;
  print PrintComplete ;;;
  print PrintRule ;;;
  t <- get_totals ;;
  let '(total_original, total_compressed) := t in
  print (PrintTotalOriginal (megabytes total_original)) ;;;
  print (PrintTotalCompressed (megabytes total_compressed)) ;;;
  print (PrintTotalSaved (megabytes (total_original - total_compressed))) ;;;
  overall <- percent_reduction total_compressed total_original ;;
  print (PrintOverallReduction overall) ;;;
  print (PrintSavedTo output_folder).

(** Lines 17-18: the default output folder *)
Definition resolve_output (input_folder : string) (output_folder : option string)
  : string :=
  match output_folder with
  | None => input_folder +:+ "-compressed"
  | Some o => o
  end.

(** Lines 5-96 *)
Definition compress_images (input_folder : string) (output_folder : option string)
    (max_width quality : Z) : M unit :=
  let output_folder := resolve_output input_folder output_folder in
  os_makedirs output_folder ;;;
  listed <- try_except
              (names <- os_listdir input_folder ;; ret (Some (image_files names)))
              ExceptFileNotFoundError
              (fun _ => print (PrintFolderNotFound input_folder) ;;; ret None) ;;
  match listed with
  | None => ret tt
  | Some files =>
      match files with
      | [] => print (PrintNoImageFiles input_folder)
      | _ :: _ =>
          let count := List.length files in
          print (PrintCompressing count input_folder) ;;;
          print (PrintOutputFolder output_folder) ;;;
          print (PrintSettings max_width quality) ;;;
          reset_totals ;;;
          _results <- for_files input_folder output_folder max_width quality 1
                                count files ;;
          summary output_folder
      end
  end.

End Compress.

(** The state a run starts from. *)
Definition initial (m : gmap string node) : state := mk_state m [] 0 0.

(** ** Names used in the statements *)

(** The canvas colour of line 57. *)
Definition white : pixels := Fill 255 255 255.

(** What Pillow raises for a target size with a dimension below 1. *)
Definition zero_size_refused : exn := ValueError "height and width must be > 0".

(** What Python raises at lines 80 and 95 on a zero divisor. *)
Definition division_by_zero : exn := ZeroDivisionError "division by zero".

(** The two lines of a success, as lines 82-83 print them. *)
Definition success_lines (i count : nat) (filename : string) (o c : Z)
  : list line :=
  [PrintFileName i count filename;
   PrintFileSizes (megabytes o) (megabytes c)
     (Float.mul (Float.sub (Float.of_int 1) (Float.truediv c o))
                (Float.of_int 100))].

(** An encoder for the examples: writable modes are RGB, L and CMYK, and
    the stream takes a tenth of a byte per pixel plus a header. *)
Definition demo_encode (img : image) (q : Z) (o : bool) : exn + Z :=
  if existsb (String.eqb (mode img)) ["RGB"; "L"; "CMYK"]
  then inr (width img * height img / 10 + 600)
  else inl (OSError "cannot write mode as JPEG").

Definition picture (m : string) (w h : Z) (id : N) : exn + image :=
  inr (mk_image m w h (Stored id)).

(** The state a successful pipeline ends in. *)
Definition after_success (s : state) (output name : string) (l : bool)
    (es : list (string * file)) (written : file) (lines : list line)
    (o c : Z) : state :=
  mk_state (<[output := Dir l (write_entry name written es)]> (fs s))
           (stdout s ++ lines)
           (total_original_size s + o) (total_compressed_size s + c).

(** The kernel's binary64 numbers, to test the float model against. *)
Module Binary64.

Definition of_Z (z : Z) : PrimFloat.float :=
  PrimFloat.of_uint63 (Uint63.of_Z z).

(** [x] and [y] are the same number: same sign, significand and exponent. *)
Definition agrees (x : PrimFloat.float) (y : Float.float) : bool :=
  match FloatOps.Prim2SF x with
  | SpecFloat.S754_zero _ => Float.mant y =? 0
  | SpecFloat.S754_finite sign m e =>
      (Float.mant y =? (if sign then Z.neg m else Z.pos m))
      && (Float.expo y =? e)
  | _ => false
  end.

(** Line 66 on the two models. *)
Definition height_agrees (W w h : Z) : bool :=
  agrees (PrimFloat.mul (of_Z h) (PrimFloat.div (of_Z W) (of_Z w)))
         (Float.mul (Float.of_int h) (Float.truediv W w)).

(** Line 80 on the two models. *)
Definition reduction_agrees (c o : Z) : bool :=
  agrees (PrimFloat.mul (PrimFloat.sub (of_Z 1)
                                       (PrimFloat.div (of_Z c) (of_Z o)))
                        (of_Z 100))
         (Float.mul (Float.sub (Float.of_int 1) (Float.truediv c o))
                    (Float.of_int 100)).

(** [n / 1024 / 1024] on the two models. *)
Definition megabytes_agrees (n : Z) : bool :=
  agrees (PrimFloat.div (PrimFloat.div (of_Z n) (of_Z 1024)) (of_Z 1024))
         (megabytes n).

End Binary64.

(** ** Names used in the further properties *)

(** The state of line 43, when the loop starts: the three header lines
    are printed and both totals are zero. *)
Definition batch_start (count : nat) (input_folder output_folder : string)
    (max_width quality : Z) (s : state) : state :=
  mk_state (fs s)
           (stdout s ++ [PrintCompressing count input_folder;
                         PrintOutputFolder output_folder;
                         PrintSettings max_width quality])
           0 0.

(** Between two states, nothing but files of the folder [output] named in
    [touched] has changed, and no file of that folder has disappeared. *)
Definition output_kept (output : string) (touched : list string)
    (s s' : state) : Prop :=
  (forall p, p <> output -> fs s' !! p = fs s !! p) /\
  (forall lo eso,
     fs s !! output = Some (Dir lo eso) ->
     exists es',
       fs s' !! output = Some (Dir lo es') /\
       (forall name, ~ In name touched ->
                     find_entry name es' = find_entry name eso) /\
       (forall name, is_Some (find_entry name eso) ->
                     is_Some (find_entry name es'))) /\
  (forall n, fs s !! output = n -> (forall lo eso, n <> Some (Dir lo eso)) ->
             fs s' !! output = n).

(** * The gallery generator (generate_photos.py) *)

Module Gallery.

(** Line 14 *)
Definition image_extensions : list string :=
  [".jpg"; ".jpeg"; ".png"; ".gif"; ".webp"; ".JPG"; ".JPEG"; ".PNG"].

(** [os.path.basename(p)] (posixpath): what follows the last separator *)
Definition basename (p : string) : string :=
  Py.drop_str (Z.to_nat (Py.rfind p "/" + 1)) p.

(** One constructor per [print] call, with the values handed to the
    format string. *)
Inductive line :=
| PrintFolderNotFound (folder_path : string)
| PrintNoImageFiles (folder_path : string)
| PrintFound (count : nat) (folder_path : string)
| PrintGridHeader
| PrintItemOpen (i : nat)
| PrintItemImg (folder_name filename : string)
| PrintItemClose
| PrintArrayHeader
| PrintArrayOpen
| PrintArrayEntry (folder_name filename : string)
| PrintArrayClose
| PrintTotal (count : nat).

(** Lines 35-38: [for i, filename in enumerate(files)], from index [i] *)
Fixpoint grid_items (i : nat) (folder_name : string) (files : list string)
  : list line :=
  match files with
  | [] => []
  | filename :: rest =>
      [PrintItemOpen i; PrintItemImg folder_name filename; PrintItemClose]
      ++ grid_items (S i) folder_name rest
  end.

(** Lines 44-45 *)
Fixpoint array_entries (folder_name : string) (files : list string) : list line :=
  match files with
  | [] => []
  | filename :: rest =>
      PrintArrayEntry folder_name filename :: array_entries folder_name rest
  end.

(** Lines 17-18: the selected names, sorted as [list.sort] sorts strings *)
Definition sorted_files (names : list string) : list string :=
  merge_sort String.le
    (List.filter (fun f => Py.endswith f image_extensions) names).

(** Lines 4-48: the lines printed and how the call ends, on a file
    system that the call only reads. *)
Definition generate_photo_html (folder_path : string)
    (folder_name : option string) (m : gmap string node)
  : list line * (exn + unit) :=
  match snd (os_listdir folder_path (initial m)) with
  | inl e =>
      if catches ExceptFileNotFoundError e
      then ([PrintFolderNotFound folder_path], inr tt)
      else ([], inl e)
  | inr names =>
      let files := sorted_files names in
      match files with
      | [] => ([PrintNoImageFiles folder_path], inr tt)
      | _ :: _ =>
          let folder_name :=
            match folder_name with
            | None => basename folder_path
            | Some n => n
            end in
          ([PrintFound (List.length files) folder_path; PrintGridHeader]
           ++ grid_items 0 folder_name files
           ++ [PrintArrayHeader; PrintArrayOpen]
           ++ array_entries folder_name files
           ++ [PrintArrayClose; PrintTotal (List.length files)],
           inr tt)
      end
  end.

(** What the page shows: the photo items of the grid, each with the
    index it hands to [openLightbox], and the paths of the array. *)
Fixpoint grid_refs (out : list line) : list (nat * (string * string)) :=
  match out with
  | [] => []
  | PrintItemOpen i :: rest =>
      match rest with
      | PrintItemImg folder_name filename :: _ =>
          (i, (folder_name, filename)) :: grid_refs rest
      | _ => grid_refs rest
      end
  | _ :: rest => grid_refs rest
  end.

Fixpoint array_refs (out : list line) : list (string * string) :=
  match out with
  | [] => []
  | PrintArrayEntry folder_name filename :: rest =>
      (folder_name, filename) :: array_refs rest
  | _ :: rest => array_refs rest
  end.

(** A line that shows a path shows it under the label [L]. *)
Definition labelled (L : string) (ln : line) : Prop :=
  match ln with
  | PrintItemImg folder_name _ => folder_name = L
  | PrintArrayEntry folder_name _ => folder_name = L
  | _ => True
  end.

End Gallery.

(** * Properties *)

(** ** Strings *)

Module PyFacts.
Import Py.

Lemma take_drop_str n s : take_str n s +:+ drop_str n s = s.
Proof.
  revert s; induction n as [|n IH]; intros [|a t]; simpl; try reflexivity.
  change (String a (take_str n t +:+ drop_str n t) = String a t).
  f_equal. apply IH.
Qed.

Lemma length_app_str a b :
  String.length (a +:+ b) = (String.length a + String.length b)%nat.
Proof.
  induction a as [|c a IH]; [reflexivity |].
  change (S (String.length (a +:+ b)) = S (String.length a + String.length b)).
  now rewrite IH.
Qed.

Lemma drop_str_app a b : drop_str (String.length a) (a +:+ b) = b.
Proof. induction a as [|c a IH]; [reflexivity | exact IH]. Qed.

Lemma endswith1_iff s suffix :
  endswith1 s suffix = true <-> exists stem, s = stem +:+ suffix.
Proof.
  unfold endswith1. rewrite andb_true_iff, Nat.leb_le, String.eqb_eq. split.
  - intros [_ Hd].
    set (n := (String.length s - String.length suffix)%nat) in *.
    exists (take_str n s). rewrite <- Hd. symmetry. apply take_drop_str.
  - intros [stem ->]. rewrite length_app_str. split; [lia |].
    replace (String.length stem + String.length suffix - String.length suffix)%nat
      with (String.length stem) by lia.
    apply drop_str_app.
Qed.

Lemma endswith_iff s suffixes :
  endswith s suffixes = true <->
  exists stem ext, In ext suffixes /\ s = stem +:+ ext.
Proof.
  unfold endswith. rewrite existsb_exists. split.
  - intros (ext & Hin & He). apply endswith1_iff in He as [stem ->]. eauto.
  - intros (stem & ext & Hin & ->). exists ext. split; [exact Hin |].
    apply endswith1_iff. eauto.
Qed.

Lemma take_str_app a b : take_str (String.length a) (a +:+ b) = a.
Proof.
  induction a as [|c a IH]; [reflexivity |].
  change (String c (take_str (String.length a) (a +:+ b)) = String c a).
  now rewrite IH.
Qed.

Lemma rfind_app a b c :
  0 <= rfind b c -> rfind (a +:+ b) c = Z.of_nat (String.length a) + rfind b c.
Proof.
  intros Hb. induction a as [|x a IH].
  { change (rfind b c = 0 + rfind b c). lia. }
  change (rfind (String x (a +:+ b)) c
          = Z.of_nat (S (String.length a)) + rfind b c).
  cbn [rfind]. rewrite IH.
  destruct (Z.leb_spec 0 (Z.of_nat (String.length a) + rfind b c)); lia.
Qed.

Lemma rfind_app_absent a b c :
  rfind b c = -1 -> rfind (a +:+ b) c = rfind a c.
Proof.
  intros Hb. induction a as [|x a IH]; [exact Hb |].
  change (rfind (String x (a +:+ b)) c = rfind (String x a) c).
  cbn [rfind]. now rewrite IH.
Qed.

(** [os.path.splitext] on a name made of a stem that starts with a
    character other than the dot and holds no separator, followed by an
    extension that is a dot and characters other than dot and separator. *)
Lemma splitext_stem_ext a t ext :
  a <> "."%char -> rfind (String a t) "/" = -1 ->
  rfind ext "." = 0 -> rfind ext "/" = -1 ->
  splitext (String a t +:+ ext) = (String a t, ext).
Proof.
  intros Ha Hsep Hdot Hnosep. unfold splitext.
  rewrite (rfind_app_absent _ _ _ Hnosep), Hsep.
  rewrite rfind_app by lia. rewrite Hdot, Z.add_0_r.
  destruct (Z.ltb_spec (-1) (Z.of_nat (String.length (String a t)))) as [_|H];
    [| lia].
  replace (Z.to_nat (Z.of_nat (String.length (String a t)) - (-1 + 1)))
    with (S (String.length t)) by (cbn [String.length]; lia).
  rewrite Nat2Z.id.
  cbn [splitext_scan andb]. change (-1 + 1) with 0.
  change (char_at (String a t +:+ ext) 0) with (String a EmptyString).
  destruct (String.eqb_spec (String a EmptyString) ".") as [E|_];
    [injection E as E; contradiction |].
  cbn [negb]. now rewrite take_str_app, drop_str_app.
Qed.

End PyFacts.

Example splitext_examples :
  List.map Py.splitext ["photo.png"; "a.b.JPG"; ".jpg"; "..png"; "a.b/c"] =
  [("photo", ".png"); ("a.b", ".JPG"); (".jpg", ""); ("..png", "");
   ("a.b/c", "")].
Proof. reflexivity. Qed.

(** ** Enumerator *)

Example image_files_ex :
  image_files ["a.jpg"; "b.txt"; "c.PNG"; "d.Jpg"; "e.jpeg.bak"] = ["a.jpg"; "c.PNG"].
Proof. reflexivity. Qed.

(** C5, as stated, fails: [photo.Jpg] is in the directory and its
    extension is jpg when compared case-insensitively, yet the Enumerator
    does not select it. *)
Lemma enumerator_skips_mixed_case :
  In "photo.Jpg" ["photo.Jpg"; "b.pNG"] /\
  extension_ci_in_set "photo.Jpg" = true /\
  ~ In "photo.Jpg" (image_files ["photo.Jpg"; "b.pNG"]).
Proof.
  split; [now left |]. split; [reflexivity |].
  vm_compute. tauto.
Qed.

(** The selection is a filter: it takes the names that pass the test of
    line 28 out of the listing without reordering them. *)
Lemma image_files_sublist names : sublist (image_files names) names.
Proof.
  unfold image_files. induction names as [|n names IH]; cbn [List.filter].
  - apply sublist_nil.
  - destruct (Py.endswith n image_extensions);
      [apply sublist_skip | apply sublist_cons]; exact IH.
Qed.

Lemma image_files_count names f :
  Py.endswith f image_extensions = true ->
  count_occ string_dec (image_files names) f = count_occ string_dec names f.
Proof.
  intros Hf. unfold image_files.
  induction names as [|n names IH]; cbn [List.filter].
  - reflexivity.
  - destruct (Py.endswith n image_extensions) eqn:Hn; cbn [count_occ];
      destruct (string_dec n f) as [->|Hne]; rewrite ?IH; try reflexivity.
    congruence.
Qed.

(** C5, amended: a name of the directory is selected exactly when it ends
    with one of the six literal suffixes .jpg .jpeg .png .JPG .JPEG .PNG;
    the selection keeps the order of the listing (it is a subsequence of
    it) and every selected name occurs in it as often as in the listing. *)
Theorem enumerator_selects_literal_suffixes :
  forall names : list string,
    (forall f,
       In f (image_files names) <->
       In f names /\
       exists stem ext, In ext image_extensions /\ f = stem +:+ ext) /\
    sublist (image_files names) names /\
    (forall f stem ext,
       In ext image_extensions -> f = stem +:+ ext ->
       count_occ string_dec (image_files names) f =
       count_occ string_dec names f).
Proof.
  intros names. split; [| split].
  - intros f. unfold image_files.
    rewrite filter_In, PyFacts.endswith_iff. reflexivity.
  - apply image_files_sublist.
  - intros f stem ext Hext ->. apply image_files_count.
    apply PyFacts.endswith_iff. eauto.
Qed.

Lemma enumerator_selects_literal_suffixes_witness :
  In "c.PNG" (image_files ["a.jpg"; "b.txt"; "c.PNG"; "d.Jpg"]) /\
  sublist (image_files ["a.jpg"; "b.txt"; "c.PNG"; "d.Jpg"])
          ["a.jpg"; "b.txt"; "c.PNG"; "d.Jpg"] /\
  count_occ string_dec (image_files ["a.jpg"; "b.txt"; "c.PNG"; "d.Jpg"]) "a.jpg"
    = 1%nat.
Proof.
  destruct (enumerator_selects_literal_suffixes
              ["a.jpg"; "b.txt"; "c.PNG"; "d.Jpg"]) as (Hin & Hsub & Hcount).
  split; [| split].
  - apply Hin. split.
    + simpl. tauto.
    + exists "c", ".PNG". split; [simpl; tauto | reflexivity].
  - exact Hsub.
  - rewrite (Hcount "a.jpg" "a" ".jpg"); [reflexivity | simpl; tauto | reflexivity].
Defined.


(** ** Floats *)

(** The float model computes what binary64 arithmetic computes, on the
    expressions of lines 66, 80 and 83. *)
Example float_model_agrees_with_binary64 :
  forallb (fun '(W, w, h) => Binary64.height_agrees W w h)
    [(2000, 3000, 2000); (2000, 3000, 1); (1, 49, 49); (1920, 123457, 99999);
     (2000, 6000, 4000); (5, 3, 7); (2000, 2001, 2001); (800, 4032, 3024)]
  && forallb (fun '(c, o) => Binary64.reduction_agrees c o)
    [(1, 3); (500, 1000); (123456, 7891011); (10, 10); (30, 10);
     (999999, 1000000); (0, 5)]
  && forallb Binary64.megabytes_agrees [0; 1; 100; 9000; 1048576; 7891011]
  = true.
Proof. vm_compute. reflexivity. Qed.

(** Truncation is not the floor of the exact quotient: 49 * (1 / 49) is
    below 1 in binary64. *)
Example scaled_height_49 :
  scaled_height 49 (Float.truediv 1 49) = 0 /\ 49 * 1 / 49 = 1.
Proof. split; reflexivity. Qed.

Module FloatFacts.
Import Float.

Lemma round_half_even_le P q N :
  0 < q -> 2 * P < q * (2 * N + 1) -> round_half_even P q <= N.
Proof.
  intros Hq H. unfold round_half_even.
  pose proof (Z.div_mod P q ltac:(lia)) as Hdm.
  pose proof (Z.mod_pos_bound P q Hq) as Hr.
  assert (P / q <= N) by nia.
  destruct (Z.compare_spec (2 * (P mod q)) q) as [E|L|G].
  - assert (P / q <> N) by nia.
    destruct (Z.even (P / q)); lia.
  - lia.
  - assert (P / q <> N) by nia. lia.
Qed.

Lemma round_half_even_ge P q N :
  0 < q -> N * q <= P -> N <= round_half_even P q.
Proof.
  intros Hq H. unfold round_half_even.
  pose proof (Z.div_mod P q ltac:(lia)) as Hdm.
  pose proof (Z.mod_pos_bound P q Hq) as Hr.
  assert (N <= P / q) by nia.
  destruct (2 * (P mod q) ?= q); [destruct (Z.even (P / q)) | |]; lia.
Qed.

Lemma round_half_even_error P q :
  0 < q -> 2 * round_half_even P q * q <= 2 * P + q.
Proof.
  intros Hq. unfold round_half_even.
  pose proof (Z.div_mod P q ltac:(lia)) as Hdm.
  pose proof (Z.mod_pos_bound P q Hq) as Hr.
  destruct (Z.compare_spec (2 * (P mod q)) q) as [E|L|G];
    [destruct (Z.even (P / q)) | |]; nia.
Qed.

Lemma round_half_even_exact n : round_half_even n 1 = n.
Proof.
  unfold round_half_even. rewrite Z.div_1_r, Z.mod_1_r. reflexivity.
Qed.

(** The significand and exponent that [rnd] chooses for a quotient below
    one, before the significand [2^53] is renormalised. *)
Lemma rnd_below_one p q :
  0 < p -> p < q ->
  exists m e,
    e <= -53 /\ 2 ^ 52 <= m <= 2 ^ 53 /\
    2 * m * q <= 2 * p * 2 ^ (- e) + q /\
    rnd p q = if m =? 2 ^ 53 then mk (2 ^ 52) (e + 1) else mk m e.
Proof.
  intros Hp Hpq. unfold rnd. cbv zeta.
  destruct (Z.eqb_spec p 0) as [|_]; [lia |].
  rewrite (Z.abs_eq p) by lia. rewrite (Z.sgn_pos p) by lia.
  rewrite !Z.mul_1_l.
  pose proof (Z.log2_spec p Hp) as [Lp Up].
  pose proof (Z.log2_spec q ltac:(lia)) as [Lq Uq].
  pose proof (Z.log2_nonneg p) as Np.
  pose proof (Z.log2_le_mono p q ltac:(lia)) as Hk.
  rewrite Z.pow_succ_r in Up, Uq by (apply Z.log2_nonneg).
  set (lp := Z.log2 p) in *. set (lq := Z.log2 q) in *.
  set (t := lq - lp).
  assert (Ht : 0 <= t) by (unfold t; lia).
  assert (HT : 2 ^ lq = 2 ^ lp * 2 ^ t).
  { rewrite <- Z.pow_add_r by lia. f_equal. unfold t. lia. }
  assert (HTpos : 0 < 2 ^ t) by (apply Z.pow_pos_nonneg; lia).
  assert (Hkt : - (lp - lq) = t) by (unfold t; lia).
  (* the comparison that picks the exponent *)
  assert (Habove :
    (if 0 <=? lp - lq then q * 2 ^ (lp - lq) <=? p
     else q <=? p * 2 ^ (- (lp - lq))) = (q <=? p * 2 ^ t)).
  { destruct (Z.leb_spec 0 (lp - lq)) as [H0|H0].
    - assert (lp - lq = 0) as -> by lia.
      assert (t = 0) as -> by (unfold t; lia).
      rewrite Z.pow_0_r, !Z.mul_1_r. reflexivity.
    - rewrite Hkt. reflexivity. }
  rewrite Habove. clear Habove.
  destruct (Z.leb_spec q (p * 2 ^ t)) as [Hab|Hab].
  - (* quotient at least 2^k: exponent k - 52 *)
    assert (t <> 0).
    { intros ->. rewrite Z.pow_0_r in Hab. lia. }
    set (e := lp - lq - 52).
    assert (He : - e = t + 52) by (unfold e, t; lia).
    destruct (Z.leb_spec 0 e) as [H0|_]; [unfold e in H0; lia |].
    rewrite He, Z.pow_add_r by lia.
    set (m := round_half_even (p * (2 ^ t * 2 ^ 52)) q).
    exists m, e. split; [unfold e; lia |].
    assert (A : 2 ^ 52 * q <= p * (2 ^ t * 2 ^ 52)) by nia.
    assert (B : p * (2 ^ t * 2 ^ 52) < 2 ^ 53 * q).
    { change (2 ^ 53) with (2 * 2 ^ 52). nia. }
    split; [split |].
    + apply round_half_even_ge; lia.
    + apply round_half_even_le; lia.
    + split; [| reflexivity].
      rewrite He, Z.pow_add_r by lia.
      pose proof (round_half_even_error (p * (2 ^ t * 2 ^ 52)) q ltac:(lia)).
      fold m in H0. lia.
  - (* quotient below 2^k: exponent k - 53 *)
    set (e := lp - lq - 53).
    assert (He : - e = t + 53) by (unfold e, t; lia).
    destruct (Z.leb_spec 0 e) as [H0|_]; [unfold e in H0; lia |].
    rewrite He, Z.pow_add_r by lia.
    set (m := round_half_even (p * (2 ^ t * 2 ^ 53)) q).
    exists m, e. split; [unfold e; lia |].
    assert (A : 2 ^ 52 * q <= p * (2 ^ t * 2 ^ 53)).
    { change (2 ^ 53) with (2 * 2 ^ 52). nia. }
    assert (B : p * (2 ^ t * 2 ^ 53) < 2 ^ 53 * q) by nia.
    split; [split |].
    + apply round_half_even_ge; lia.
    + apply round_half_even_le; lia.
    + split; [| reflexivity].
      rewrite He, Z.pow_add_r by lia.
      pose proof (round_half_even_error (p * (2 ^ t * 2 ^ 53)) q ltac:(lia)).
      fold m in H. lia.
Qed.

Lemma rnd_below_one_bounds p q :
  0 < p -> p < q ->
  exists m e,
    rnd p q = mk m e /\ e <= -52 /\ 2 ^ 52 <= m /\
    2 * m * q <= 2 * p * 2 ^ (- e) + q.
Proof.
  intros Hp Hpq.
  destruct (rnd_below_one p q Hp Hpq) as (m & e & He & Hm & Herr & Heq).
  destruct (Z.eqb_spec m (2 ^ 53)) as [E|NE].
  - exists (2 ^ 52), (e + 1). split; [exact Heq |]. split; [lia |].
    split; [lia |]. subst m.
    assert (Hpow : 2 ^ (- e) = 2 * 2 ^ (- (e + 1))).
    { rewrite <- Z.pow_succ_r by lia. f_equal. lia. }
    rewrite Hpow in Herr. change (2 ^ 53) with (2 * 2 ^ 52) in Herr. lia.
  - exists m, e. repeat split; try lia. exact Heq.
Qed.

(** A quotient below [1 - 2^-54] rounds to a float below one, whose
    integer part is zero. *)
Lemma to_int_rnd_zero P Q :
  0 < P -> 0 < Q -> P * 2 ^ 54 < Q * (2 ^ 54 - 1) -> to_int (rnd P Q) = 0.
Proof.
  intros HP HQ H.
  assert (HPQ : P < Q) by lia.
  destruct (rnd_below_one P Q HP HPQ) as (m & e & He & Hm & Herr & Heq).
  rewrite Heq. unfold to_int.
  destruct (Z.eqb_spec m (2 ^ 53)) as [E|NE]; cbn [mant expo].
  - subst m.
    assert (e <> -53).
    { intros ->. change (2 ^ (- -53)) with (2 ^ 53) in Herr.
      change (2 ^ 54) with (2 * 2 ^ 53) in H. lia. }
    destruct (Z.leb_spec 0 (e + 1)) as [|_]; [lia |].
    apply Z.quot_small. split; [lia |].
    apply Z.pow_lt_mono_r; lia.
  - destruct (Z.leb_spec 0 e) as [|_]; [lia |].
    apply Z.quot_small. split; [lia |].
    apply Z.lt_le_trans with (2 ^ 53); [lia |].
    apply Z.pow_le_mono_r; lia.
Qed.

(** An integer below [2^52] converts to a float without rounding. *)
Lemma of_int_exact h :
  0 < h -> h < 2 ^ 52 ->
  of_int h = mk (h * 2 ^ (52 - Z.log2 h)) (Z.log2 h - 52).
Proof.
  intros H0 H1. unfold of_int, rnd. cbv zeta.
  destruct (Z.eqb_spec h 0) as [|_]; [lia |].
  rewrite (Z.abs_eq h), (Z.sgn_pos h) by lia.
  change (Z.log2 1) with 0. rewrite Z.sub_0_r, !Z.mul_1_l.
  pose proof (Z.log2_spec h H0) as [L U].
  pose proof (Z.log2_nonneg h) as N.
  assert (K : Z.log2 h < 52).
  { apply Z.log2_lt_pow2; lia. }
  set (k := Z.log2 h) in *.
  destruct (Z.leb_spec 0 k) as [_|]; [| lia].
  destruct (Z.leb_spec (2 ^ k) h) as [_|]; [| lia].
  destruct (Z.leb_spec 0 (k - 52)) as [|_]; [lia |].
  rewrite round_half_even_exact.
  replace (- (k - 52)) with (52 - k) by lia.
  assert (Hlt : h * 2 ^ (52 - k) < 2 ^ 53).
  { replace 53 with (Z.succ k + (52 - k)) by lia.
    rewrite Z.pow_add_r by lia.
    apply Z.mul_lt_mono_pos_r; [apply Z.pow_pos_nonneg; lia | exact U]. }
  destruct (Z.eqb_spec (h * 2 ^ (52 - k)) (2 ^ 53)) as [E|_]; [lia |].
  reflexivity.
Qed.

(** Line 66 on an image that is wider than [W] and so flat that
    [h * W < w]: the truncated height is zero. *)
Lemma scaled_height_zero W w h :
  0 < W -> W < w -> w <= 2 ^ 52 -> 0 <= h -> h * W < w ->
  scaled_height h (truediv W w) = 0.
Proof.
  intros HW Hw Hb Hh Hflat. unfold scaled_height, truediv.
  destruct (Z.ltb_spec 0 w) as [_|]; [| lia].
  destruct (rnd_below_one_bounds W w HW Hw) as (m & e & -> & He & Hm & Herr).
  assert (Hz : h = 0 \/ 0 < h) by lia. destruct Hz as [-> | Hpos].
  { unfold mul, rnd_dyadic. change (of_int 0) with zero.
    cbn [mant expo zero]. rewrite !Z.mul_0_l.
    destruct (0 <=? 0 + e); reflexivity. }
  assert (Hh52 : h < 2 ^ 52) by nia.
  rewrite (of_int_exact h Hpos Hh52).
  pose proof (Z.log2_nonneg h) as N.
  assert (K : Z.log2 h < 52) by (apply Z.log2_lt_pow2; lia).
  set (k := Z.log2 h) in *.
  unfold mul, rnd_dyadic. cbn [mant expo].
  destruct (Z.leb_spec 0 (k - 52 + e)) as [|_]; [lia |].
  replace (- (k - 52 + e)) with ((52 - k) + - e) by lia.
  rewrite Z.pow_add_r by lia.
  set (S := 2 ^ (52 - k)). set (E := 2 ^ (- e)) in *.
  assert (HS : 0 < S) by (apply Z.pow_pos_nonneg; lia).
  assert (HE : 2 ^ 52 <= E) by (apply Z.pow_le_mono_r; lia).
  (* the exact product h * m / E stays below 1 - 2^-54 *)
  assert (Hkey : h * m * 2 ^ 54 < E * (2 ^ 54 - 1)).
  { assert (F1 : 2 * m * w * h <= 2 * E * (w - 1) + w * h) by nia.
    assert (F2 : w * (2 ^ 53 - 1) <= 2 * W * E) by nia.
    assert (F3 : h * (2 ^ 53 - 1) < 2 * E) by nia.
    assert (F4 : w * (h * 2 ^ 53 + E) < E * 2 ^ 54) by nia.
    nia. }
  apply to_int_rnd_zero.
  - nia.
  - nia.
  - replace (h * S * m * 2 ^ 54) with (S * (h * m * 2 ^ 54)) by ring.
    replace (S * E * (2 ^ 54 - 1)) with (S * (E * (2 ^ 54 - 1))) by ring.
    apply Z.mul_lt_mono_pos_l; assumption.
Qed.

End FloatFacts.

(** ** ColorNormalizer *)

Lemma normalize_cases (img : image) (s : state) :
  (mode img = "RGBA" /\
   normalize img s =
     (s, inr (mk_image "RGB" (width img) (height img)
                       (PasteMask white (px img) (Band 3 (px img)))))) \/
  (mode img = "P" /\
   normalize img s =
     (s, inr (mk_image "RGB" (width img) (height img)
                       (PasteMask white (Convert "RGBA" (px img))
                                  (Band 3 (Convert "RGBA" (px img))))))) \/
  (mode img = "LA" /\
   normalize img s =
     (s, inr (mk_image "RGB" (width img) (height img)
                       (Paste white (px img))))) \/
  (mode img <> "RGBA" /\ mode img <> "LA" /\ mode img <> "P" /\
   normalize img s = (s, inr img)).
Proof.
  destruct img as [m w h p]. cbn [mode width height px].
  destruct (String.eqb_spec m "RGBA") as [->|N1].
  { left; split; [reflexivity |].
    unfold normalize, PIL.paste, size_eqb. cbn.
    now rewrite !Z.eqb_refl. }
  destruct (String.eqb_spec m "P") as [->|N2].
  { right; left; split; [reflexivity |].
    unfold normalize, PIL.paste, size_eqb. cbn.
    now rewrite !Z.eqb_refl. }
  destruct (String.eqb_spec m "LA") as [->|N3];
    [right; right; left; split; reflexivity |].
  right; right; right. repeat split; try assumption.
  unfold normalize. cbn [mode existsb].
  apply String.eqb_neq in N1, N2, N3. rewrite N1, N2, N3. reflexivity.
Qed.

(** The normalizer neither raises nor changes the state or the size, and
    its result does not depend on the state. *)
Lemma normalize_total (img : image) :
  exists out,
    (forall s, normalize img s = (s, inr out)) /\
    width out = width img /\ height out = height img.
Proof.
  destruct (normalize_cases img (initial ∅))
    as [[Hm _]|[[Hm _]|[[Hm _]|(N1 & N2 & N3 & _)]]].
  all: eexists; split; [| split];
    [ intros s;
      destruct (normalize_cases img s)
        as [[Hm' H]|[[Hm' H]|[[Hm' H]|(N1' & N2' & N3' & H)]]];
      try congruence; exact H
    | reflexivity | reflexivity ].
Qed.




(** ** Resizer *)


(** A picture wider than [W] is handed to Pillow's resize with the
    target size of lines 65-67. *)
Lemma resizer_wide (W : Z) (img : image) (s : state) :
  W < width img -> width img <> 0 ->
  resizer W img s =
    lift (PIL.resize img W
            (scaled_height (height img) (Float.truediv W (width img)))
            LANCZOS) s.
Proof.
  intros Hlt Hnz. unfold resizer.
  destruct (Z.ltb_spec W (width img)) as [_|]; [| lia].
  unfold truediv, bind.
  destruct (Z.eqb_spec (width img) 0) as [|_]; [contradiction | reflexivity].
Qed.

(** Pillow refuses a target height below 1. *)
Lemma resizer_zero_height_raises (W : Z) (img : image) (s : state) :
  W < width img -> width img <> 0 ->
  scaled_height (height img) (Float.truediv W (width img)) < 1 ->
  resizer W img s = (s, inl zero_size_refused).
Proof.
  intros Hlt Hnz Hh. rewrite (resizer_wide W img s Hlt Hnz).
  unfold PIL.resize.
  destruct (Z.eqb_spec (width img) W) as [|_]; [lia |].
  destruct (Z.ltb_spec
              (scaled_height (height img) (Float.truediv W (width img))) 1);
    [| lia].
  rewrite orb_true_r. reflexivity.
Qed.

(** The Resizer asks for LANCZOS; for a picture in mode 1 (black and
    white, which the normalizer passes through) Pillow resamples with
    NEAREST instead. *)
Example resizer_bilevel :
  resizer 2000 (mk_image "1" 3000 2000 (Stored 4)) (initial ∅) =
    (initial ∅,
     inr (mk_image "1" 2000 1333 (Resize 2000 1333 NEAREST (Stored 4)))).
Proof. reflexivity. Qed.



(** ** The monad and the primitives *)

Lemma bind_ok {A B} (c : M A) (k : A -> M B) s s1 a :
  c s = (s1, inr a) -> bind c k s = k a s1.
Proof. intros H. unfold bind. now rewrite H. Qed.

Lemma bind_raise {A B} (c : M A) (k : A -> M B) s s1 e :
  c s = (s1, inl e) -> bind c k s = (s1, inl e).
Proof. intros H. unfold bind. now rewrite H. Qed.

Lemma bind_inv_ok {A B} (c : M A) (k : A -> M B) s s' b :
  bind c k s = (s', inr b) ->
  exists s1 a, c s = (s1, inr a) /\ k a s1 = (s', inr b).
Proof.
  unfold bind. destruct (c s) as [s1 [e|a]]; intros H; [discriminate |].
  eauto.
Qed.

Lemma find_entry_write_eq name f es :
  find_entry name (write_entry name f es) = Some f.
Proof.
  induction es as [|[n g] rest IH]; simpl.
  - now rewrite String.eqb_refl.
  - destruct (String.eqb_spec n name) as [->|N]; simpl.
    + now rewrite String.eqb_refl.
    + apply String.eqb_neq in N. now rewrite N.
Qed.

Lemma find_entry_write_ne name other f es :
  other <> name -> find_entry other (write_entry name f es) = find_entry other es.
Proof.
  intros N. induction es as [|[n g] rest IH]; simpl.
  - destruct (String.eqb_spec name other); [congruence | reflexivity].
  - destruct (String.eqb_spec n name) as [->|N']; simpl.
    + destruct (String.eqb_spec name other); [congruence | reflexivity].
    + destruct (String.eqb_spec n other); [reflexivity | exact IH].
Qed.

Lemma write_entry_names name f es :
  is_Some (find_entry name es) ->
  List.map fst (write_entry name f es) = List.map fst es.
Proof.
  induction es as [|[n g] rest IH]; simpl.
  - intros [x Hx]. discriminate.
  - destruct (String.eqb_spec n name) as [->|N]; simpl; [reflexivity |].
    intros H. f_equal. exact (IH H).
Qed.

Lemma write_entry_names_fresh name f es :
  find_entry name es = None ->
  List.map fst (write_entry name f es) = List.map fst es ++ [name].
Proof.
  induction es as [|[n g] rest IH]; simpl; [reflexivity |].
  destruct (String.eqb_spec n name) as [->|N]; simpl; [discriminate |].
  intros H. f_equal. exact (IH H).
Qed.

Section Primitives.

Variables (folder name : string) (s : state).

Lemma lookup_file_found l es f :
  fs s !! folder = Some (Dir l es) -> find_entry name es = Some f ->
  lookup_file folder name s = (s, inr f).
Proof.
  intros Hd Hf. unfold lookup_file, bind, get_fs. now rewrite Hd, Hf.
Qed.

Lemma lookup_file_inv s1 f :
  lookup_file folder name s = (s1, inr f) ->
  s1 = s /\ exists l es,
    fs s !! folder = Some (Dir l es) /\ find_entry name es = Some f.
Proof.
  unfold lookup_file, bind, get_fs.
  destruct (fs s !! folder) as [[|l es]|]; try discriminate.
  destruct (find_entry name es) as [g|] eqn:Hf; try discriminate.
  unfold ret. intros H. injection H as <- <-. eauto.
Qed.

Lemma lookup_file_state : fst (lookup_file folder name s) = s.
Proof.
  unfold lookup_file, bind, get_fs.
  destruct (fs s !! folder) as [[|l es]|]; try reflexivity.
  destruct (find_entry name es); reflexivity.
Qed.

Lemma Image_open_found l es f img :
  fs s !! folder = Some (Dir l es) -> find_entry name es = Some f ->
  f_picture f = inr img -> Image_open folder name s = (s, inr img).
Proof.
  intros Hd Hf Hp. unfold Image_open.
  rewrite (bind_ok _ _ _ _ _ (lookup_file_found _ _ _ Hd Hf)).
  now rewrite Hp.
Qed.

Lemma Image_open_inv s1 img :
  Image_open folder name s = (s1, inr img) ->
  s1 = s /\ exists l es f,
    fs s !! folder = Some (Dir l es) /\ find_entry name es = Some f /\
    f_picture f = inr img.
Proof.
  unfold Image_open. intros H.
  apply bind_inv_ok in H as (s0 & f & Hl & H).
  apply lookup_file_inv in Hl as (-> & l & es & Hd & Hf).
  destruct (f_picture f) as [e|img'] eqn:Hp; [discriminate |].
  injection H as <- <-. eauto 8.
Qed.

Lemma Image_open_state : fst (Image_open folder name s) = s.
Proof.
  unfold Image_open, bind.
  pose proof lookup_file_state as Hs.
  destruct (lookup_file folder name s) as [s1 [e|f]]; simpl in *; subst;
    [reflexivity |].
  destruct (f_picture f); reflexivity.
Qed.

Lemma getsize_found l es f :
  fs s !! folder = Some (Dir l es) -> find_entry name es = Some f ->
  os_path_getsize folder name s = (s, inr (f_size f)).
Proof.
  intros Hd Hf. unfold os_path_getsize.
  now rewrite (bind_ok _ _ _ _ _ (lookup_file_found _ _ _ Hd Hf)).
Qed.

Lemma getsize_state : fst (os_path_getsize folder name s) = s.
Proof.
  unfold os_path_getsize, bind.
  pose proof lookup_file_state as Hs.
  destruct (lookup_file folder name s) as [s1 [e|f]]; simpl in *; subst;
    reflexivity.
Qed.

End Primitives.

Lemma percent_reduction_zero a s :
  percent_reduction a 0 s = (s, inl division_by_zero).
Proof. reflexivity. Qed.

Lemma percent_reduction_nonzero a b s :
  b <> 0 ->
  percent_reduction a b s =
    (s, inr (Float.mul (Float.sub (Float.of_int 1) (Float.truediv a b))
                       (Float.of_int 100))).
Proof.
  intros Hb. unfold percent_reduction, bind, truediv.
  destruct (Z.eqb_spec b 0); [contradiction | reflexivity].
Qed.

Lemma resizer_state W img s : fst (resizer W img s) = s.
Proof.
  unfold resizer. destruct (W <? width img); [| reflexivity].
  unfold bind, truediv. destruct (width img =? 0); [reflexivity |].
  unfold ret, lift. destruct (PIL.resize _ _ _ _); reflexivity.
Qed.

Lemma Image_save_inv enc img folder name q o s s1 :
  Image_save enc img folder name q o s = (s1, inr tt) ->
  exists l es n,
    fs s !! folder = Some (Dir l es) /\ enc img q o = inr n /\
    s1 = with_fs (<[folder :=
                     Dir l (write_entry name
                              (mk_file n (inr (saved_picture img q o))) es)]>
                    (fs s)) s.
Proof.
  unfold Image_save, bind, get_fs.
  destruct (fs s !! folder) as [[|l es]|] eqn:Hd; try discriminate.
  unfold lift. destruct (enc img q o) as [e|n] eqn:He; [discriminate |].
  unfold ret, put_fs. intros H. injection H as <-. eauto 8.
Qed.

Lemma process_file_eq enc input output W q i count filename s :
  process_file enc input output W q i count filename s =
  match pipeline enc input output W q i count filename s with
  | (s1, inr (o, c)) => (s1, inr (Success filename o c))
  | (s1, inl e) =>
      (printed (PrintFileError i count filename e) s1, inr (Error filename e))
  end.
Proof.
  unfold process_file, try_except, bind.
  destruct (pipeline enc input output W q i count filename s)
    as [s1 [e|[o c]]]; reflexivity.
Qed.

(** ** The per-file pipeline *)

Lemma resizer_any_state W img s s1 out :
  resizer W img s = (s1, inr out) -> forall t, resizer W img t = (t, inr out).
Proof.
  unfold resizer. destruct (W <? width img).
  - unfold bind, truediv. destruct (width img =? 0); [discriminate |].
    unfold ret, lift. destruct (PIL.resize _ _ _ _) as [e|r]; [discriminate |].
    intros H t. injection H as <- <-. reflexivity.
  - unfold ret. intros H t. injection H as <- <-. reflexivity.
Qed.

Lemma pipeline_success enc input output W q i count filename s s' o c :
  pipeline enc input output W q i count filename s = (s', inr (o, c)) ->
  exists l es f img img1 img2 lo eso,
    fs s !! input = Some (Dir l es) /\ find_entry filename es = Some f /\
    f_picture f = inr img /\ o = f_size f /\ o <> 0 /\
    (forall t, normalize img t = (t, inr img1)) /\
    (forall t, resizer W img1 t = (t, inr img2)) /\
    fs s !! output = Some (Dir lo eso) /\ enc img2 q true = inr c /\
    s' = after_success s output (output_name filename) lo eso
           (mk_file c (inr (saved_picture img2 q true)))
           (success_lines i count filename o c) o c.
Proof.
  unfold pipeline. intros H.
  apply bind_inv_ok in H as (s1 & img & Hopen & H).
  apply Image_open_inv in Hopen as (-> & l & es & f & Hd & Hf & Hp).
  apply bind_inv_ok in H as (s2 & osz & Hsz & H).
  rewrite (getsize_found _ _ _ _ _ _ Hd Hf) in Hsz. injection Hsz as <- <-.
  apply bind_inv_ok in H as (s3 & [] & Hadd & H).
  injection Hadd as <-.
  destruct (normalize_total img) as (img1 & Hn & _ & _).
  rewrite (bind_ok _ _ _ _ _ (Hn _)) in H.
  apply bind_inv_ok in H as (s4 & img2 & Hr & H).
  pose proof (resizer_state W img1 (counted_original (f_size f) s)) as Hs4.
  rewrite Hr in Hs4. simpl in Hs4. subst s4.
  pose proof (resizer_any_state _ _ _ _ _ Hr) as Hr'.
  apply bind_inv_ok in H as (s5 & [] & Hsave & H).
  apply Image_save_inv in Hsave as (lo & eso & n & Hdo & Henc & ->).
  cbn [fs counted_original] in Hdo.
  apply bind_inv_ok in H as (s6 & csz & Hcsz & H).
  erewrite getsize_found in Hcsz;
    [| cbn [fs with_fs]; apply lookup_insert_eq | apply find_entry_write_eq].
  injection Hcsz as <- <-. cbn [f_size] in H.
  apply bind_inv_ok in H as (s7 & [] & Hadd & H).
  injection Hadd as <-.
  apply bind_inv_ok in H as (s8 & red & Hred & H).
  destruct (Z.eq_dec (f_size f) 0) as [Hz|Hnz].
  { rewrite Hz, percent_reduction_zero in Hred. discriminate. }
  rewrite (percent_reduction_nonzero _ _ _ Hnz) in Hred.
  injection Hred as <- <-.
  apply bind_inv_ok in H as (s9 & [] & Hp1 & H). injection Hp1 as <-.
  apply bind_inv_ok in H as (s10 & [] & Hp2 & H). injection Hp2 as <-.
  injection H as <- <- <-.
  exists l, es, f, img, img1, img2, lo, eso.
  repeat (split; [first [assumption | reflexivity] |]).
  unfold after_success, printed, counted_compressed, with_fs, counted_original,
    success_lines.
  cbn [fs stdout total_original_size total_compressed_size].
  rewrite <- app_assoc. reflexivity.
Qed.

(** A pipeline that raises leaves a state that extends the printed lines
    by nothing: the lines of a file are printed last. *)
Lemma pipeline_raise_stdout enc input output W q i count filename s s' e :
  pipeline enc input output W q i count filename s = (s', inl e) ->
  stdout s' = stdout s.
Proof.
  unfold pipeline, bind.
  pose proof (Image_open_state input filename s) as H1.
  destruct (Image_open input filename s) as [s1 [e1|img]]; simpl in H1; subst s1.
  { intros H; injection H as <- _; reflexivity. }
  pose proof (getsize_state input filename s) as H2.
  destruct (os_path_getsize input filename s) as [s2 [e2|osz]];
    simpl in H2; subst s2.
  { intros H; injection H as <- _; reflexivity. }
  unfold add_original.
  destruct (normalize_total img) as (img1 & Hn & _ & _). rewrite Hn.
  pose proof (resizer_state W img1 (counted_original osz s)) as H3.
  destruct (resizer W img1 (counted_original osz s)) as [s3 [e3|img2]];
    simpl in H3; subst s3.
  { intros H; injection H as <- _; reflexivity. }
  unfold Image_save, bind, get_fs.
  destruct (fs (counted_original osz s) !! output) as [[|lo eso]|].
  1, 3: intros H; injection H as <- _; reflexivity.
  unfold lift. destruct (enc img2 q true) as [e4|n].
  { unfold raise. intros H; injection H as <- _; reflexivity. }
  unfold ret, put_fs.
  match goal with
  | |- context [os_path_getsize ?a ?b ?st] =>
      pose proof (getsize_state a b st) as H5;
      destruct (os_path_getsize a b st) as [s5 [e5|csz]]; simpl in H5; subst s5
  end.
  { intros H; injection H as <- _; reflexivity. }
  unfold add_compressed, percent_reduction, bind, truediv.
  destruct (osz =? 0).
  { unfold raise. intros H; injection H as <- _; reflexivity. }
  unfold ret, print. discriminate.
Qed.

(** ** Resizer on flat images *)

(** C10: a picture wider than the max width W and so flat that
    height * W < width gets the computed height 0; the resize is then
    requested with a zero height, which Pillow refuses, and the file ends
    on the error path: its error line is printed and its result is an
    Error.  (Widths are bounded by 2^52 here; Pillow keeps them below
    2^31.) *)
Theorem flat_image_reaches_error_path :
  forall enc input output (W q : Z) (i count : nat) filename
         (s : state) l es f img,
    fs s !! input = Some (Dir l es) ->
    find_entry filename es = Some f ->
    f_picture f = inr img ->
    0 < W -> W < width img -> width img <= 2 ^ 52 ->
    0 <= height img -> height img * W < width img ->
    scaled_height (height img) (Float.truediv W (width img)) = 0 /\
    (forall out t, normalize img t = (t, inr out) ->
                   resizer W out t = (t, inl zero_size_refused)) /\
    process_file enc input output W q i count filename s =
      (printed (PrintFileError i count filename zero_size_refused)
               (counted_original (f_size f) s),
       inr (Error filename zero_size_refused)).
Proof.
  intros enc input output W q i count filename s l es f img
         Hd Hf Hp HW Hwide Hbound Hh Hflat.
  pose proof (FloatFacts.scaled_height_zero W (width img) (height img)
                HW Hwide Hbound Hh Hflat) as Hzero.
  destruct (normalize_total img) as (img1 & Hn & Hw1 & Hh1).
  assert (Hres : forall t, resizer W img1 t = (t, inl zero_size_refused)).
  { intros t. apply resizer_zero_height_raises; rewrite Hw1; [lia | lia |].
    rewrite Hh1, Hzero. lia. }
  split; [exact Hzero |]. split.
  - intros out t Ho. rewrite Hn in Ho. injection Ho as <-. apply Hres.
  - rewrite process_file_eq. unfold pipeline.
    rewrite (bind_ok _ _ _ _ _ (Image_open_found _ _ _ _ _ _ _ Hd Hf Hp)).
    rewrite (bind_ok _ _ _ _ _ (getsize_found _ _ _ _ _ _ Hd Hf)).
    unfold add_original at 1. unfold bind at 1.
    rewrite (bind_ok _ _ _ _ _ (Hn _)).
    rewrite (bind_raise _ _ _ _ _ (Hres _)). reflexivity.
Qed.

Lemma flat_image_reaches_error_path_witness :
  let s := initial {[ "in" := Dir true [("thin.png", mk_file 100 (picture "RGB" 3000 1 3))];
                      "out" := Dir true [] ]} in
  process_file demo_encode "in" "out" 2000 85 1 1 "thin.png" s =
    (printed (PrintFileError 1 1 "thin.png" zero_size_refused)
             (counted_original 100 s),
     inr (Error "thin.png" zero_size_refused)).
Proof.
  intros s.
  refine (proj2 (proj2 (flat_image_reaches_error_path demo_encode "in" "out"
            2000 85 1 1 "thin.png" s true
            [("thin.png", mk_file 100 (picture "RGB" 3000 1 3))]
            (mk_file 100 (picture "RGB" 3000 1 3))
            (mk_image "RGB" 3000 1 (Stored 3))
            _ _ _ _ _ _ _ _))); try reflexivity; simpl; lia.
Defined.

(** ** ErrorIsolator *)

Lemma for_files_run enc input output W q count files :
  forall i s,
  exists s' results extra,
    for_files enc input output W q i count files s = (s', inr results) /\
    List.map result_name results = files /\
    stdout s' = stdout s ++ extra /\
    (forall k name e,
       results !! k = Some (Error name e) ->
       In (PrintFileError (i + k) count name e) extra).
Proof.
  induction files as [|f rest IH]; intros i s.
  - exists s, [], []. repeat split; [now rewrite app_nil_r |].
    intros k name e Hk. destruct k; discriminate.
  - cbn [for_files]. unfold bind at 1. rewrite process_file_eq.
    destruct (pipeline enc input output W q i count f s)
      as [s1 [e|[o c]]] eqn:Hpipe.
    + destruct (IH (S i) (printed (PrintFileError i count f e) s1))
        as (s' & rs & extra & Hrun & Hnames & Hout & Herr).
      rewrite (bind_ok _ _ _ _ _ Hrun).
      exists s', (Error f e :: rs), (PrintFileError i count f e :: extra).
      split; [reflexivity |]. split; [cbn; now rewrite Hnames |]. split.
      * rewrite Hout. cbn [stdout printed].
        rewrite (pipeline_raise_stdout _ _ _ _ _ _ _ _ _ _ _ Hpipe).
        now rewrite <- app_assoc.
      * intros [|k] name e' Hk.
        -- injection Hk as <- <-. rewrite Nat.add_0_r. now left.
        -- right. replace (i + S k)%nat with (S i + k)%nat by lia.
           apply Herr. exact Hk.
    + destruct (IH (S i) s1) as (s' & rs & extra & Hrun & Hnames & Hout & Herr).
      rewrite (bind_ok _ _ _ _ _ Hrun).
      apply pipeline_success in Hpipe
        as (l & es & f0 & img & img1 & img2 & lo & eso & _ & _ & _ & _ & _ & _
            & _ & _ & _ & Hs1).
      exists s', (Success f o c :: rs), (success_lines i count f o c ++ extra).
      split; [reflexivity |]. split; [cbn; now rewrite Hnames |]. split.
      * rewrite Hout, Hs1. cbn [stdout after_success].
        now rewrite <- app_assoc.
      * intros [|k] name e' Hk; [discriminate |].
        apply in_or_app. right.
        replace (i + S k)%nat with (S i + k)%nat by lia.
        apply Herr. exact Hk.
Qed.



(** ** Encoder *)

Lemma output_name_ends_with_jpg filename :
  Py.endswith1 (output_name filename) ".jpg" = true.
Proof. apply PyFacts.endswith1_iff. unfold output_name. eauto. Qed.

(** A name made of a stem and one of the six selected extensions gets
    the stem and [.jpg]. *)
Lemma output_name_of_stem a t ext :
  a <> "."%char -> Py.rfind (String a t) "/" = -1 ->
  In ext image_extensions ->
  output_name (String a t +:+ ext) = String a t +:+ ".jpg".
Proof.
  intros Ha Hsep Hin. unfold output_name.
  rewrite PyFacts.splitext_stem_ext; try assumption; [reflexivity | |];
    simpl in Hin; intuition (subst; reflexivity).
Qed.

Example output_names :
  List.map output_name
    ["photo.png"; "photo.jpg"; "photo.JPEG"; "a.b.PNG"; ".jpg"; "x.jpeg"] =
    ["photo.jpg"; "photo.jpg"; "photo.jpg"; "a.b.jpg"; ".jpg.jpg"; "x.jpg"].
Proof. reflexivity. Qed.

(** C8: a file whose pipeline succeeds leaves, in the output directory,
    a file named stem + ".jpg" (the stem being that of os.path.splitext,
    whatever the source extension was) that holds the JPEG just encoded,
    of the size reported; the other files of the directory are untouched;
    and when a file of that name was already there, as after an earlier
    input with the same stem, it is replaced: the names of the directory
    are the same as before, so one file remains. *)
Theorem encoder_forces_jpg_name :
  forall enc input output (W q : Z) (i count : nat) filename
         (s s' : state) (o c : Z),
    pipeline enc input output W q i count filename s = (s', inr (o, c)) ->
    output_name filename = fst (Py.splitext filename) +:+ ".jpg" /\
    Py.endswith1 (output_name filename) ".jpg" = true /\
    (forall a t ext,
       filename = String a t +:+ ext -> a <> "."%char ->
       Py.rfind (String a t) "/" = -1 -> In ext image_extensions ->
       output_name filename = String a t +:+ ".jpg") /\
    exists lo before after img,
      fs s !! output = Some (Dir lo before) /\
      fs s' !! output = Some (Dir lo after) /\
      enc img q true = inr c /\
      find_entry (output_name filename) after =
        Some (mk_file c (inr (saved_picture img q true))) /\
      (forall other, other <> output_name filename ->
                     find_entry other after = find_entry other before) /\
      (is_Some (find_entry (output_name filename) before) ->
       List.map fst after = List.map fst before) /\
      (find_entry (output_name filename) before = None ->
       List.map fst after = List.map fst before ++ [output_name filename]).
Proof.
  intros enc input output W q i count filename s s' o c H.
  split; [reflexivity |]. split; [apply output_name_ends_with_jpg |].
  split; [intros a t ext ->; apply output_name_of_stem |].
  apply pipeline_success in H
    as (l & es & f & img & img1 & img2 & lo & eso & _ & _ & _ & _ & _ & _ & _
        & Hdo & Henc & ->).
  exists lo, eso,
    (write_entry (output_name filename)
                 (mk_file c (inr (saved_picture img2 q true))) eso), img2.
  split; [exact Hdo |].
  split; [cbn [fs after_success]; apply lookup_insert_eq |].
  split; [exact Henc |].
  split; [apply find_entry_write_eq |].
  split; [intros other Hne; now apply find_entry_write_ne |].
  split; [apply write_entry_names | apply write_entry_names_fresh].
Qed.

Lemma encoder_forces_jpg_name_witness :
  let s := initial {[ "in" := Dir true [("photo.png", mk_file 9000 (picture "RGBA" 100 80 1))];
                      "out" := Dir true [("photo.jpg", mk_file 5 (picture "RGB" 1 1 9))] ]} in
  exists lo after,
    fs (fst (pipeline demo_encode "in" "out" 2000 85 1 1 "photo.png" s)) !! "out"
      = Some (Dir lo after) /\
    List.map fst after = ["photo.jpg"].
Proof.
  intros s.
  destruct (encoder_forces_jpg_name demo_encode "in" "out" 2000 85 1 1
              "photo.png" s
              (fst (pipeline demo_encode "in" "out" 2000 85 1 1 "photo.png" s))
              9000 1400 ltac:(vm_compute; reflexivity))
    as (_ & _ & _ & lo & before & after & img & Hb & Ha & _ & _ & _ & Hsame & _).
  exists lo, after. split; [exact Ha |].
  assert (before = [("photo.jpg", mk_file 5 (picture "RGB" 1 1 9))]) as ->.
  { vm_compute in Hb. now injection Hb as _ <-. }
  apply Hsame. vm_compute. eauto.
Defined.

(** Two inputs with one stem: the second write replaces the first. *)
Example collision_overwrites :
  let s := initial {[ "in" := Dir true [("photo.png", mk_file 9000 (picture "RGBA" 100 80 1));
                                        ("photo.jpg", mk_file 7000 (picture "RGB" 60 50 2))] ]} in
  fs (fst (compress_images demo_encode "in" None 2000 85 s)) !! "in-compressed" =
    Some (Dir true [("photo.jpg",
                     mk_file 900 (inr (mk_image "RGB" 60 50
                                                (Jpeg 85 true (Stored 2)))))]).
Proof. vm_compute. reflexivity. Qed.

(** ** SizeAccountant and Reporter *)

(** A file of size zero never ends as a success. *)
Lemma zero_size_file_is_error enc input output W q i count filename s l es f :
  fs s !! input = Some (Dir l es) -> find_entry filename es = Some f ->
  f_size f = 0 ->
  exists s' e,
    process_file enc input output W q i count filename s =
      (s', inr (Error filename e)).
Proof.
  intros Hd Hf Hz. rewrite process_file_eq.
  destruct (pipeline enc input output W q i count filename s)
    as [s1 [e|[o c]]] eqn:Hpipe; [eauto |].
  apply pipeline_success in Hpipe
    as (l' & es' & f' & img & img1 & img2 & lo & eso & Hd' & Hf' & _ & Ho & Hnz
        & _).
  rewrite Hd in Hd'. injection Hd' as <- <-.
  rewrite Hf in Hf'. injection Hf' as <-. congruence.
Qed.

(** C3 fails on the code: a picture whose size on disk is reported as 0
    is decoded, encoded and written, then line 80 divides by zero; the
    exception is caught by the handler of line 85 and the file is
    reported as an error, after its compressed size was added to the
    total. *)
Theorem zero_byte_original_becomes_error :
  let s := initial {[ "in" := Dir true [("blank.jpg", mk_file 0 (picture "RGB" 10 10 4))];
                      "out" := Dir true [] ]} in
  let run := process_file demo_encode "in" "out" 2000 85 1 1 "blank.jpg" s in
  snd run = inr (Error "blank.jpg" division_by_zero) /\
  stdout (fst run) = [PrintFileError 1 1 "blank.jpg" division_by_zero] /\
  total_original_size (fst run) = 0 /\
  total_compressed_size (fst run) = 610 /\
  fs (fst run) !! "out" =
    Some (Dir true [("blank.jpg",
                     mk_file 610 (inr (mk_image "RGB" 10 10
                                                (Jpeg 85 true (Stored 4)))))]).
Proof. vm_compute. repeat split; reflexivity. Qed.


(** C4 fails on the code: a batch whose only file cannot be decoded has
    no success and a zero total; the summary prints its first lines, then
    the division of line 95 raises ZeroDivisionError, which nothing
    catches: [compress_images] ends with that exception. *)
Theorem summary_raises_without_success :
  let s := initial {[ "in" := Dir true
                        [("broken.jpg",
                          mk_file 77 (inl (UnidentifiedImageError "in/broken.jpg")))] ]} in
  let run := compress_images demo_encode "in" None 2000 85 s in
  snd run = inl division_by_zero /\
  stdout (fst run) =
    [PrintCompressing 1 "in"; PrintOutputFolder "in-compressed";
     PrintSettings 2000 85;
     PrintFileError 1 1 "broken.jpg" (UnidentifiedImageError "in/broken.jpg");
     PrintRule; PrintComplete; PrintRule;
     PrintTotalOriginal Float.zero; PrintTotalCompressed Float.zero;
     PrintTotalSaved Float.zero].
Proof. vm_compute. split; reflexivity. Qed.

(** C1 fails on the code: in a batch of a flat picture (3000 x 1, 100
    bytes), whose resize raises, and a good one (500 bytes), the failed
    file is an Error result, yet its 100 bytes are in the total of
    original sizes: 600, where the successful results sum to 500. *)
Theorem failed_file_counted_in_original_total :
  let s := initial {[ "in" := Dir true [("thin.png", mk_file 100 (picture "RGB" 3000 1 3));
                                        ("ok.jpg", mk_file 500 (picture "RGB" 50 40 2))];
                      "out" := Dir true [] ]} in
  let run := for_files demo_encode "in" "out" 2000 85 1 2 ["thin.png"; "ok.jpg"] s in
  let results := [Error "thin.png" zero_size_refused; Success "ok.jpg" 500 800] in
  snd run = inr results /\
  total_original_size (fst run) = 600 /\
  sum_over_successes original_of results = 500 /\
  total_compressed_size (fst run) = 800 /\
  sum_over_successes compressed_of results = 800.
Proof. vm_compute. repeat split; reflexivity. Qed.

(** ** Missing input folder *)

(** C2, as stated, fails: an input folder that exists but cannot be
    listed makes [os.listdir] raise PermissionError, which the handler of
    line 29 does not catch: no message is printed and the call ends with
    the exception. *)
Lemma unlistable_input_raises :
  let s := initial {[ "locked" := Dir false
                        [("a.jpg", mk_file 500 (picture "RGB" 50 40 2))] ]} in
  let run := compress_images demo_encode "locked" None 2000 85 s in
  snd run = inl (PermissionError "locked") /\ stdout (fst run) = [].
Proof. vm_compute. split; reflexivity. Qed.

(** C2, amended: when the output folder exists or has been created and
    the input folder is then missing, the batch prints the one error
    message and returns normally; no file is processed, no total moves,
    and the file system is as [os.makedirs] left it: unchanged, or with
    the new, empty output folder. *)
Theorem missing_input_folder_reported :
  forall enc input output (W q : Z) (s s1 : state),
    os_makedirs (resolve_output input output) s = (s1, inr tt) ->
    fs s1 !! input = None ->
    compress_images enc input output W q s =
      (printed (PrintFolderNotFound input) s1, inr tt) /\
    (s1 = s \/
     fs s !! resolve_output input output = None /\
     s1 = with_fs (<[resolve_output input output := Dir true []]> (fs s)) s).
Proof.
  intros enc input output W q s s1 Hmk Hmissing. split.
  - unfold compress_images. cbv zeta.
    rewrite (bind_ok _ _ _ _ _ Hmk).
    unfold bind at 1. unfold try_except, bind at 1.
    unfold os_listdir, bind at 1. unfold get_fs. rewrite Hmissing.
    reflexivity.
  - unfold os_makedirs, bind, get_fs in Hmk.
    destruct (fs s !! resolve_output input output) as [[|l es]|] eqn:Hd.
    + discriminate.
    + left. injection Hmk as <-. reflexivity.
    + right. injection Hmk as <-. split; reflexivity.
Qed.

Lemma missing_input_folder_reported_witness :
  let s := initial {[ "other" := Dir true [] ]} in
  compress_images demo_encode "nowhere" None 2000 85 s =
    (printed (PrintFolderNotFound "nowhere")
             (with_fs (<["nowhere-compressed" := Dir true []]> (fs s)) s),
     inr tt).
Proof.
  intros s.
  apply (missing_input_folder_reported demo_encode "nowhere" None 2000 85 s
           (with_fs (<["nowhere-compressed" := Dir true []]> (fs s)) s)).
  - vm_compute. reflexivity.
  - vm_compute. reflexivity.
Defined.

(** * Further properties of the batch *)

(** ** What one file's pipeline does to the state, in every outcome *)

Lemma Image_save_eq enc img folder name q o s :
  Image_save enc img folder name q o s =
  match fs s !! folder with
  | None => (s, inl (FileNotFoundError (os_path_join folder name)))
  | Some NotDir => (s, inl (NotADirectoryError (os_path_join folder name)))
  | Some (Dir l es) =>
      match enc img q o with
      | inl e => (s, inl e)
      | inr n =>
          (with_fs (<[folder := Dir l (write_entry name
                       (mk_file n (inr (saved_picture img q o))) es)]> (fs s)) s,
           inr tt)
      end
  end.
Proof.
  unfold Image_save, bind, get_fs.
  destruct (fs s !! folder) as [[|l es]|]; try reflexivity.
  unfold lift. destruct (enc img q o); reflexivity.
Qed.

(** The four ways a pipeline ends: the file cannot be opened; it is
    counted and then a stage up to the save raises; it is written and the
    division of line 80 raises; or it succeeds. *)
Lemma pipeline_outcomes enc input output W q i count filename s :
  let run := pipeline enc input output W q i count filename s in
  (exists e, Image_open input filename s = (s, inl e) /\ run = (s, inl e)) \/
  (exists l es f e,
     fs s !! input = Some (Dir l es) /\ find_entry filename es = Some f /\
     (exists img, f_picture f = inr img) /\
     run = (counted_original (f_size f) s, inl e)) \/
  (exists l es f lo eso c img2,
     fs s !! input = Some (Dir l es) /\ find_entry filename es = Some f /\
     (exists img, f_picture f = inr img) /\ f_size f = 0 /\
     fs s !! output = Some (Dir lo eso) /\
     run = (counted_compressed c
              (with_fs (<[output := Dir lo (write_entry (output_name filename)
                            (mk_file c (inr (saved_picture img2 q true))) eso)]>
                          (fs s))
                       (counted_original 0 s)),
            inl division_by_zero)) \/
  (exists l es f lo eso c img2,
     fs s !! input = Some (Dir l es) /\ find_entry filename es = Some f /\
     (exists img, f_picture f = inr img) /\ f_size f <> 0 /\
     fs s !! output = Some (Dir lo eso) /\
     run = (after_success s output (output_name filename) lo eso
              (mk_file c (inr (saved_picture img2 q true)))
              (success_lines i count filename (f_size f) c) (f_size f) c,
            inr (f_size f, c))).
Proof.
  intros run.
  assert (Hrun : run = pipeline enc input output W q i count filename s)
    by reflexivity.
  clearbody run. unfold pipeline in Hrun.
  destruct (Image_open input filename s) as [s1 [e|img]] eqn:Hopen.
  { pose proof (Image_open_state input filename s) as Hs.
    rewrite Hopen in Hs. simpl in Hs. subst s1.
    left. exists e. split; [reflexivity |].
    now rewrite (bind_raise _ _ _ _ _ Hopen) in Hrun. }
  right.
  apply Image_open_inv in Hopen as (-> & l & es & f & Hd & Hf & Hp).
  assert (Hpic : exists img, f_picture f = inr img) by eauto.
  rewrite (bind_ok _ _ _ _ _ (Image_open_found _ _ _ _ _ _ _ Hd Hf Hp)) in Hrun.
  rewrite (bind_ok _ _ _ _ _ (getsize_found _ _ _ _ _ _ Hd Hf)) in Hrun.
  rewrite (bind_ok (add_original (f_size f)) _ s
             (counted_original (f_size f) s) tt eq_refl) in Hrun.
  destruct (normalize_total img) as (img1 & Hn & _ & _).
  rewrite (bind_ok _ _ _ _ _ (Hn _)) in Hrun.
  set (s1 := counted_original (f_size f) s) in *.
  destruct (resizer W img1 s1) as [s2 [e|img2]] eqn:Hr.
  { pose proof (resizer_state W img1 s1) as Hs.
    rewrite Hr in Hs. simpl in Hs. subst s2.
    left. exists l, es, f, e. repeat split; try assumption.
    now rewrite (bind_raise _ _ _ _ _ Hr) in Hrun. }
  pose proof (resizer_state W img1 s1) as Hs.
  rewrite Hr in Hs. simpl in Hs. subst s2.
  rewrite (bind_ok _ _ _ _ _ Hr) in Hrun.
  unfold bind at 1 in Hrun. rewrite Image_save_eq in Hrun.
  change (fs s1) with (fs s) in Hrun.
  destruct (fs s !! output) as [[|lo eso]|] eqn:Hdo.
  1, 3: left; exists l, es, f; eexists; repeat split; eassumption.
  destruct (enc img2 q true) as [e|c] eqn:Henc.
  { left. exists l, es, f, e. repeat split; assumption. }
  right.
  set (written := mk_file c (inr (saved_picture img2 q true))) in *.
  set (m' := <[output := Dir lo (write_entry (output_name filename) written eso)]>
               (fs s)) in *.
  rewrite (bind_ok _ _ _ _ _
             (getsize_found output (output_name filename) (with_fs m' s1)
                lo (write_entry (output_name filename) written eso) written
                (lookup_insert_eq _ _ _) (find_entry_write_eq _ _ _))) in Hrun.
  cbn [f_size written] in Hrun.
  rewrite (bind_ok (add_compressed c) _ (with_fs m' s1)
             (counted_compressed c (with_fs m' s1)) tt eq_refl) in Hrun.
  destruct (Z.eq_dec (f_size f) 0) as [Hz|Hnz].
  - left. exists l, es, f, lo, eso, c, img2.
    repeat split; try assumption.
    unfold bind at 1 in Hrun. rewrite Hz, percent_reduction_zero in Hrun.
    subst s1. rewrite Hz in Hrun. exact Hrun.
  - right. exists l, es, f, lo, eso, c, img2.
    repeat split; try assumption.
    unfold bind at 1 in Hrun.
    rewrite (percent_reduction_nonzero _ _ _ Hnz) in Hrun.
    rewrite Hrun.
    unfold bind, print, ret, after_success, printed, counted_compressed,
      with_fs, success_lines. subst s1 m' written.
    cbn [fs stdout total_original_size total_compressed_size counted_original].
    rewrite <- app_assoc. reflexivity.
Qed.

(** ** The file system under the batch *)

Lemma output_kept_same output touched s s' :
  fs s' = fs s -> output_kept output touched s s'.
Proof.
  intros E. unfold output_kept. rewrite E. repeat split; try tauto.
  - intros lo eso H. exists eso. repeat split; tauto.
Qed.

Lemma output_kept_trans output t1 t2 s s1 s2 :
  output_kept output t1 s s1 -> output_kept output t2 s1 s2 ->
  output_kept output (t1 ++ t2) s s2.
Proof.
  intros (F1 & D1 & N1) (F2 & D2 & N2). repeat split.
  - intros p Hp. rewrite (F2 p Hp). apply F1, Hp.
  - intros lo eso H.
    destruct (D1 lo eso H) as (es1 & H1 & K1 & P1).
    destruct (D2 lo es1 H1) as (es2 & H2 & K2 & P2).
    exists es2. split; [exact H2 |]. split.
    + intros name Hn. rewrite K2, K1; [reflexivity | |];
        intros Hin; apply Hn, in_or_app; tauto.
    + intros name Hs. apply P2, P1, Hs.
  - intros n Hn Hnd. apply (N2 n); [| exact Hnd]. apply (N1 n); assumption.
Qed.

Lemma output_kept_write output name written lo eso s s' :
  fs s !! output = Some (Dir lo eso) ->
  fs s' = <[output := Dir lo (write_entry name written eso)]> (fs s) ->
  output_kept output [name] s s'.
Proof.
  intros Hd E. unfold output_kept. rewrite E. repeat split.
  - intros p Hp. now apply lookup_insert_ne.
  - intros lo' eso' H. rewrite Hd in H. injection H as <- <-.
    exists (write_entry name written eso).
    split; [apply lookup_insert_eq |]. split.
    + intros other Hn. apply find_entry_write_ne.
      intros ->. apply Hn. now left.
    + intros other Hs.
      destruct (String.eqb_spec other name) as [->|Hne].
      * rewrite find_entry_write_eq. eauto.
      * now rewrite find_entry_write_ne.
  - intros n Hn Hnd. rewrite Hd in Hn. subst n. now destruct (Hnd lo eso).
Qed.

Lemma pipeline_output_kept enc input output W q i count filename s :
  output_kept output [output_name filename] s
    (fst (pipeline enc input output W q i count filename s)).
Proof.
  destruct (pipeline_outcomes enc input output W q i count filename s)
    as [(e & _ & ->)
       |[(l & es & f & e & _ & _ & _ & ->)
        |[(l & es & f & lo & eso & c & img2 & _ & _ & _ & _ & Hdo & ->)
         |(l & es & f & lo & eso & c & img2 & _ & _ & _ & _ & Hdo & ->)]]];
    cbn [fst].
  - now apply output_kept_same.
  - now apply output_kept_same.
  - eapply output_kept_write; [exact Hdo | reflexivity].
  - eapply output_kept_write; [exact Hdo | reflexivity].
Qed.

Lemma process_file_output_kept enc input output W q i count filename s :
  output_kept output [output_name filename] s
    (fst (process_file enc input output W q i count filename s)).
Proof.
  rewrite process_file_eq.
  pose proof (pipeline_output_kept enc input output W q i count filename s) as H.
  destruct (pipeline enc input output W q i count filename s)
    as [s1 [e|[o c]]]; cbn [fst] in *; [| exact H].
  rewrite <- (app_nil_r [output_name filename]).
  eapply output_kept_trans; [exact H |]. now apply output_kept_same.
Qed.

Lemma for_files_output_kept enc input output W q count files :
  forall i s,
    output_kept output (List.map output_name files) s
      (fst (for_files enc input output W q i count files s)).
Proof.
  induction files as [|f rest IH]; intros i s.
  - now apply output_kept_same.
  - cbn [for_files List.map]. unfold bind at 1.
    pose proof (process_file_output_kept enc input output W q i count f s) as H1.
    pose proof (for_files_run enc input output W q count [f] i s)
      as (s1 & r1 & _ & Hrun1 & _).
    destruct (process_file enc input output W q i count f s) as [s' [e|r]] eqn:Hp.
    { rewrite process_file_eq in Hp.
      destruct (pipeline enc input output W q i count f s) as [? [?|[? ?]]];
        discriminate. }
    cbn [fst] in H1.
    pose proof (IH (S i) s') as H2.
    change (output_name f :: List.map output_name rest)
      with ([output_name f] ++ List.map output_name rest).
    unfold bind.
    destruct (for_files enc input output W q (S i) count rest s')
      as [s'' [e|rs]]; cbn [fst] in *;
      eapply output_kept_trans; eassumption.
Qed.

Lemma os_listdir_state path s : fst (os_listdir path s) = s.
Proof.
  unfold os_listdir, bind, get_fs.
  destruct (fs s !! path) as [[|[] es]|]; reflexivity.
Qed.


Lemma for_files_never_raises enc input output W q count files i s :
  exists s' rs, for_files enc input output W q i count files s = (s', inr rs).
Proof.
  destruct (for_files_run enc input output W q count files i s)
    as (s' & rs & extra & H & _). eauto.
Qed.

(** The whole call, by cases on what it finds. *)
Lemma compress_images_eq enc input output W q s :
  compress_images enc input output W q s =
  let out := resolve_output input output in
  match os_makedirs out s with
  | (s1, inl e) => (s1, inl e)
  | (s1, inr _) =>
      match snd (os_listdir input s1) with
      | inl e =>
          if catches ExceptFileNotFoundError e
          then (printed (PrintFolderNotFound input) s1, inr tt)
          else (s1, inl e)
      | inr names =>
          match image_files names with
          | [] => (printed (PrintNoImageFiles input) s1, inr tt)
          | f :: rest =>
              let files := f :: rest in
              let count := List.length files in
              summary out
                (fst (for_files enc input out W q 1 count files
                        (batch_start count input out W q s1)))
          end
      end
  end.
Proof.
  unfold compress_images. cbv zeta. unfold bind at 1.
  destruct (os_makedirs (resolve_output input output) s) as [s1 [e|[]]];
    [reflexivity |].
  unfold bind at 1. unfold try_except. unfold bind at 1.
  pose proof (os_listdir_state input s1) as Hs.
  destruct (os_listdir input s1) as [s1' [e|names]]; cbn [fst snd] in *;
    subst s1'.
  { destruct (catches ExceptFileNotFoundError e); reflexivity. }
  cbn [ret]. destruct (image_files names) as [|f rest] eqn:Hfiles;
    [reflexivity |].
  unfold bind, print, reset_totals. cbn [printed fs stdout].
  change (mk_state (fs s1) _ 0 0)
    with (mk_state (fs s1)
            (((stdout s1 ++ [PrintCompressing (List.length (f :: rest)) input])
              ++ [PrintOutputFolder (resolve_output input output)])
             ++ [PrintSettings W q]) 0 0).
  rewrite <- !app_assoc. cbn [app].
  fold (batch_start (List.length (f :: rest)) input
          (resolve_output input output) W q s1).
  destruct (for_files_never_raises enc input (resolve_output input output) W q
              (List.length (f :: rest)) (f :: rest) 1
              (batch_start (List.length (f :: rest)) input
                 (resolve_output input output) W q s1)) as (s3 & rs & ->).
  reflexivity.
Qed.








(** ** Accounting *)

Lemma sum_over_successes_cons size r rs :
  sum_over_successes size (r :: rs) =
  (if is_success r then size r else 0) + sum_over_successes size rs.
Proof. unfold sum_over_successes. cbn. destruct (is_success r); reflexivity. Qed.

(** X3: a file's size on disk enters the total of original sizes exactly
    when the file can be opened, whatever happens to it afterwards. *)
Theorem opened_file_is_counted :
  forall enc input output (W q : Z) (i count : nat) filename (s : state) l es f,
    fs s !! input = Some (Dir l es) ->
    find_entry filename es = Some f ->
    total_original_size
      (fst (process_file enc input output W q i count filename s)) =
    total_original_size s
    + match f_picture f with inr _ => f_size f | inl _ => 0 end.
Proof.
  intros enc input output W q i count filename s l es f Hd Hf.
  rewrite process_file_eq.
  destruct (pipeline_outcomes enc input output W q i count filename s)
    as [(e & Hopen & ->)
       |[(l' & es' & f' & e & Hd' & Hf' & (img & Hp) & ->)
        |[(l' & es' & f' & lo & eso & c & img2 & Hd' & Hf' & (img & Hp) & Hz
           & _ & ->)
         |(l' & es' & f' & lo & eso & c & img2 & Hd' & Hf' & (img & Hp) & _
           & _ & ->)]]].
  - destruct (f_picture f) as [e'|img] eqn:Hp; [cbn; lia |].
    rewrite (Image_open_found _ _ _ _ _ _ _ Hd Hf Hp) in Hopen. discriminate.
  - rewrite Hd in Hd'. injection Hd' as <- <-.
    rewrite Hf in Hf'. injection Hf' as <-. rewrite Hp. reflexivity.
  - rewrite Hd in Hd'. injection Hd' as <- <-.
    rewrite Hf in Hf'. injection Hf' as <-. rewrite Hp, Hz. reflexivity.
  - rewrite Hd in Hd'. injection Hd' as <- <-.
    rewrite Hf in Hf'. injection Hf' as <-. rewrite Hp. reflexivity.
Qed.

Lemma opened_file_is_counted_witness :
  let s := initial {[ "in" := Dir true [("odd.png", mk_file 4000 (picture "F" 64 64 5))];
                      "out" := Dir true [] ]} in
  total_original_size
    (fst (process_file demo_encode "in" "out" 2000 85 1 1 "odd.png" s)) = 4000.
Proof.
  intros s.
  exact (opened_file_is_counted demo_encode "in" "out" 2000 85 1 1 "odd.png" s
           true [("odd.png", mk_file 4000 (picture "F" 64 64 5))]
           (mk_file 4000 (picture "F" 64 64 5)) eq_refl eq_refl).
Defined.

(** What one iteration does to the two totals. *)
Lemma process_file_totals enc input output W q i count filename s :
  exists s' r,
    process_file enc input output W q i count filename s = (s', inr r) /\
    (is_success r = true ->
     total_original_size s' = total_original_size s + original_of r) /\
    (total_compressed_size s' = total_compressed_size s + compressed_of r \/
     r = Error filename division_by_zero).
Proof.
  rewrite process_file_eq.
  destruct (pipeline_outcomes enc input output W q i count filename s)
    as [(e & _ & ->)
       |[(l & es & f & e & _ & _ & _ & ->)
        |[(l & es & f & lo & eso & c & img2 & _ & _ & _ & _ & _ & ->)
         |(l & es & f & lo & eso & c & img2 & _ & _ & _ & _ & _ & ->)]]];
    eexists; eexists; (split; [reflexivity |]); cbn;
    (split; [try discriminate; try reflexivity | ]);
    first [left; lia | right; reflexivity].
Qed.

Lemma for_files_totals enc input output W q count files :
  forall i s s' rs,
    for_files enc input output W q i count files s = (s', inr rs) ->
    (Forall (fun r => is_success r = true) rs ->
     total_original_size s' =
       total_original_size s + sum_over_successes original_of rs) /\
    ((forall name, ~ In (Error name division_by_zero) rs) ->
     total_compressed_size s' =
       total_compressed_size s + sum_over_successes compressed_of rs).
Proof.
  induction files as [|f rest IH]; intros i s s' rs Hrun.
  - injection Hrun as <- <-. split; intros _; cbn; lia.
  - cbn [for_files] in Hrun.
    destruct (process_file_totals enc input output W q i count f s)
      as (s1 & r & Hp & Ho & Hc).
    rewrite (bind_ok _ _ _ _ _ Hp) in Hrun.
    apply bind_inv_ok in Hrun as (s2 & rs' & Hrest & Hret).
    injection Hret as <- <-.
    destruct (IH _ _ _ _ Hrest) as [IHo IHc].
    rewrite !sum_over_successes_cons. split.
    + intros Hall. inversion Hall as [|? ? Hr Hrs]; subst.
      rewrite Hr, (IHo Hrs), (Ho Hr). lia.
    + intros Hno.
      assert (Hno' : forall name, ~ In (Error name division_by_zero) rs').
      { intros name Hin. apply (Hno name). now right. }
      rewrite (IHc Hno').
      destruct Hc as [Hc | ->]; [| exfalso; apply (Hno f); now left].
      rewrite Hc. destruct r; cbn; lia.
Qed.

(** X4: when every file of the loop succeeds, both totals are the sums
    over the results, added to what the totals were. *)
Theorem all_success_totals :
  forall enc input output (W q : Z) (i count : nat) files (s s' : state) rs,
    for_files enc input output W q i count files s = (s', inr rs) ->
    Forall (fun r => is_success r = true) rs ->
    total_original_size s' =
      total_original_size s + sum_over_successes original_of rs /\
    total_compressed_size s' =
      total_compressed_size s + sum_over_successes compressed_of rs.
Proof.
  intros enc input output W q i count files s s' rs Hrun Hall.
  destruct (for_files_totals enc input output W q count files i s s' rs Hrun)
    as [Ho Hc].
  split; [exact (Ho Hall) |]. apply Hc.
  intros name Hin. rewrite List.Forall_forall in Hall.
  specialize (Hall _ Hin). discriminate.
Qed.

Lemma all_success_totals_witness :
  let s := initial {[ "in" := Dir true [("a.png", mk_file 9000 (picture "RGBA" 100 80 1));
                                        ("b.jpg", mk_file 500 (picture "RGB" 50 40 2))];
                      "out" := Dir true [] ]} in
  let run := for_files demo_encode "in" "out" 2000 85 1 2 ["a.png"; "b.jpg"] s in
  total_original_size (fst run) = 9500 /\ total_compressed_size (fst run) = 2200.
Proof.
  intros s run.
  exact (all_success_totals demo_encode "in" "out" 2000 85 1 2 ["a.png"; "b.jpg"]
           s (fst run) [Success "a.png" 9000 1400; Success "b.jpg" 500 800]
           ltac:(vm_compute; reflexivity)
           ltac:(repeat constructor)).
Defined.



(** ** The whole call *)




(** X7: an input folder that lists no name with a selected extension
    (empty, or holding other files only) gets the one message of line 34:
    the call returns normally with nothing processed, no summary and no
    change to the file system beyond the output folder of line 21. *)
Theorem no_image_files_reported :
  forall enc input output (W q : Z) (s s1 : state) es,
    os_makedirs (resolve_output input output) s = (s1, inr tt) ->
    fs s1 !! input = Some (Dir true es) ->
    image_files (List.map fst es) = [] ->
    compress_images enc input output W q s =
      (printed (PrintNoImageFiles input) s1, inr tt).
Proof.
  intros enc input output W q s s1 es Hmk Hd Hfiles.
  rewrite compress_images_eq. cbv zeta. rewrite Hmk.
  unfold os_listdir, bind, get_fs. rewrite Hd. cbn [snd ret].
  now rewrite Hfiles.
Qed.

Lemma no_image_files_reported_witness :
  let s := initial {[ "in" := Dir true [("notes.txt", mk_file 12 (inl (UnidentifiedImageError "in/notes.txt")));
                                        ("clip.Jpg", mk_file 500 (picture "RGB" 50 40 2))];
                      "out" := Dir true [] ]} in
  compress_images demo_encode "in" (Some "out") 2000 85 s =
    (printed (PrintNoImageFiles "in") s, inr tt).
Proof.
  intros s.
  exact (no_image_files_reported demo_encode "in" (Some "out") 2000 85 s s
           [("notes.txt", mk_file 12 (inl (UnidentifiedImageError "in/notes.txt")));
            ("clip.Jpg", mk_file 500 (picture "RGB" 50 40 2))]
           eq_refl eq_refl eq_refl).
Defined.

(** X8: when the output path names something that is not a folder,
    [os.makedirs] raises FileExistsError at line 21 and the call ends
    there: nothing is listed, printed or written. *)
Theorem output_path_not_a_folder :
  forall enc input output (W q : Z) (s : state),
    fs s !! resolve_output input output = Some NotDir ->
    compress_images enc input output W q s =
      (s, inl (FileExistsError (resolve_output input output))).
Proof.
  intros enc input output W q s Hd.
  rewrite compress_images_eq. cbv zeta.
  unfold os_makedirs, bind, get_fs. now rewrite Hd.
Qed.

Lemma output_path_not_a_folder_witness :
  let s := initial {[ "in" := Dir true [("a.png", mk_file 9000 (picture "RGBA" 100 80 1))];
                      "in-compressed" := NotDir ]} in
  compress_images demo_encode "in" None 2000 85 s =
    (s, inl (FileExistsError "in-compressed")).
Proof.
  intros s.
  exact (output_path_not_a_folder demo_encode "in" None 2000 85 s eq_refl).
Defined.

(** X9: every file the loop reports as a success still has its output,
    under stem + ".jpg", in the output folder when the loop ends. *)
Theorem success_has_output_after_loop :
  forall enc input output (W q : Z) (count : nat) files (i : nat)
         (s s' : state) rs f o c,
    for_files enc input output W q i count files s = (s', inr rs) ->
    In (Success f o c) rs ->
    exists lo es',
      fs s' !! output = Some (Dir lo es') /\
      is_Some (find_entry (output_name f) es').
Proof.
  intros enc input output W q count files.
  induction files as [|x rest IH]; intros i s s' rs f o c Hrun Hin.
  - injection Hrun as <- <-. destruct Hin.
  - cbn [for_files] in Hrun.
    apply bind_inv_ok in Hrun as (s1 & r & Hp & Hrun).
    apply bind_inv_ok in Hrun as (s2 & rs' & Hrest & Hret).
    injection Hret as <- <-.
    destruct Hin as [-> | Hin]; [| eauto].
    rewrite process_file_eq in Hp.
    destruct (pipeline enc input output W q i count x s)
      as [s0 [e|[o' c']]] eqn:Hpipe; [discriminate |].
    injection Hp as -> -> -> ->.
    apply pipeline_success in Hpipe
      as (l & es & f0 & img & img1 & img2 & lo & eso & _ & _ & _ & _ & _ & _
          & _ & Hdo & _ & ->).
    pose proof (for_files_output_kept enc input output W q count rest (S i)
                  (after_success s output (output_name f) lo eso
                     (mk_file c (inr (saved_picture img2 q true)))
                     (success_lines i count f o c) o c))
      as (_ & D & _).
    rewrite Hrest in D. cbn [fst] in D.
    destruct (D lo (write_entry (output_name f)
                      (mk_file c (inr (saved_picture img2 q true))) eso))
      as (es' & H' & _ & P).
    { cbn [fs after_success]. apply lookup_insert_eq. }
    exists lo, es'. split; [exact H' |]. apply P.
    rewrite find_entry_write_eq. eauto.
Qed.

Lemma success_has_output_after_loop_witness :
  let s := initial {[ "in" := Dir true [("a.png", mk_file 9000 (picture "RGBA" 100 80 1));
                                        ("b.jpg", mk_file 500 (picture "RGB" 50 40 2))];
                      "out" := Dir true [] ]} in
  exists lo es',
    fs (fst (for_files demo_encode "in" "out" 2000 85 1 2 ["a.png"; "b.jpg"] s))
      !! "out" = Some (Dir lo es') /\
    is_Some (find_entry "a.jpg" es').
Proof.
  intros s.
  exact (success_has_output_after_loop demo_encode "in" "out" 2000 85 2
           ["a.png"; "b.jpg"] 1 s
           (fst (for_files demo_encode "in" "out" 2000 85 1 2 ["a.png"; "b.jpg"] s))
           [Success "a.png" 9000 1400; Success "b.jpg" 500 800]
           "a.png" 9000 1400
           ltac:(vm_compute; reflexivity) ltac:(now left)).
Defined.

(** ** The Resizer never enlarges *)

Module FloatBounds.
Import Float.

(** A quotient below one rounds to a float that is at most one. *)
Lemma rnd_below_one_at_most_one p q :
  0 < p -> p < q ->
  exists m e, rnd p q = mk m e /\ e < 0 /\ 0 < m <= 2 ^ (- e).
Proof.
  intros Hp Hpq.
  destruct (FloatFacts.rnd_below_one p q Hp Hpq)
    as (m & e & He & Hm & _ & Heq).
  destruct (Z.eqb_spec m (2 ^ 53)) as [E|NE].
  - exists (2 ^ 52), (e + 1). split; [exact Heq |]. split; [lia |].
    split; [lia |]. apply Z.pow_le_mono_r; lia.
  - exists m, e. split; [exact Heq |]. split; [lia |]. split; [lia |].
    apply Z.le_trans with (2 ^ 53); [lia |]. apply Z.pow_le_mono_r; lia.
Qed.

(** The integer part of a rounded quotient does not exceed an integer
    bound of the quotient. *)
Lemma to_int_rnd_le P Q h :
  0 < P -> 0 < Q -> 0 < h -> h < 2 ^ 52 -> P <= h * Q ->
  0 <= to_int (rnd P Q) <= h.
Proof.
  intros HP HQ Hh Hh52 Hle. unfold rnd. cbv zeta.
  destruct (Z.eqb_spec P 0) as [|_]; [lia |].
  rewrite (Z.abs_eq P), (Z.sgn_pos P) by lia. rewrite !Z.mul_1_l.
  pose proof (Z.log2_spec P HP) as [Lp Up].
  pose proof (Z.log2_spec Q HQ) as [Lq Uq].
  pose proof (Z.log2_nonneg P) as Np. pose proof (Z.log2_nonneg Q) as Nq.
  rewrite Z.pow_succ_r in Up, Uq by assumption.
  set (k := Z.log2 P - Z.log2 Q) in *.
  assert (Hlt : P < 2 ^ 52 * Q) by nia.
  assert (Hk : k <= 52).
  { assert (Z.log2 P < Z.log2 Q + 53); [| unfold k; lia].
    apply Z.log2_lt_pow2; [lia |].
    replace (Z.log2 Q + 53) with (52 + Z.succ (Z.log2 Q)) by lia.
    rewrite Z.pow_add_r, Z.pow_succ_r by lia. nia. }
  set (above := if 0 <=? k then Q * 2 ^ k <=? P else Q <=? P * 2 ^ (- k)).
  set (e := if above then k - 52 else k - 53).
  assert (He : e < 0).
  { unfold e. destruct above eqn:Hab; [| lia].
    unfold above in Hab. destruct (Z.leb_spec 0 k) as [H0|H0]; [| lia].
    apply Z.leb_le in Hab.
    assert (2 ^ k < 2 ^ 52) by nia.
    assert (k < 52); [| lia].
    apply (Z.pow_lt_mono_r_iff 2); lia. }
  destruct (Z.leb_spec 0 e) as [|_]; [lia |].
  set (E := 2 ^ (- e)).
  assert (HE : 0 < E) by (apply Z.pow_pos_nonneg; lia).
  set (m := round_half_even (P * E) Q).
  pose proof (FloatFacts.round_half_even_error (P * E) Q HQ) as Herr.
  pose proof (FloatFacts.round_half_even_ge (P * E) Q 0 HQ ltac:(nia)) as Hm0.
  fold m in Herr, Hm0.
  assert (HmE : m <= h * E) by nia.
  unfold to_int.
  destruct (Z.eqb_spec m (2 ^ 53)) as [E53|NE]; cbn [mant expo].
  - assert (HE2 : E = 2 * 2 ^ (- (e + 1))).
    { unfold E. rewrite <- Z.pow_succ_r by lia. f_equal. lia. }
    assert (HE' : 0 < 2 ^ (- (e + 1))) by (apply Z.pow_pos_nonneg; lia).
    destruct (Z.leb_spec 0 (e + 1)) as [H0|H0].
    + assert (e + 1 = 0) as Hz by lia. rewrite Hz in *.
      change (2 ^ (- 0)) with 1 in HE2. lia.
    + rewrite Z.quot_div_nonneg by lia. split.
      * apply Z.div_pos; lia.
      * apply Z.lt_succ_r, Z.div_lt_upper_bound; [lia |].
        change (2 ^ 53) with (2 * 2 ^ 52) in E53. nia.
  - destruct (Z.leb_spec 0 e) as [|_]; [lia |].
    fold E. rewrite Z.quot_div_nonneg by lia. split.
    + apply Z.div_pos; lia.
    + apply Z.lt_succ_r, Z.div_lt_upper_bound; [lia |]. nia.
Qed.

(** Line 66, for a picture wider than [W]: the new height is between 0
    and the old one. *)
Lemma scaled_height_le W w h :
  0 < W -> W < w -> 0 <= h -> h < 2 ^ 52 ->
  0 <= scaled_height h (truediv W w) <= h.
Proof.
  intros HW Hw Hh Hh52. unfold scaled_height, truediv.
  destruct (Z.ltb_spec 0 w) as [_|]; [| lia].
  destruct (rnd_below_one_at_most_one W w HW Hw) as (m & e & -> & He & Hm).
  assert (Hz : h = 0 \/ 0 < h) by lia. destruct Hz as [-> | Hpos].
  { unfold mul, rnd_dyadic. change (of_int 0) with zero.
    cbn [mant expo zero]. rewrite !Z.mul_0_l.
    destruct (0 <=? 0 + e); cbn; lia. }
  rewrite (FloatFacts.of_int_exact h Hpos Hh52).
  pose proof (Z.log2_nonneg h) as N.
  assert (K : Z.log2 h < 52) by (apply Z.log2_lt_pow2; lia).
  set (k := Z.log2 h) in *.
  unfold mul, rnd_dyadic. cbn [mant expo].
  destruct (Z.leb_spec 0 (k - 52 + e)) as [|_]; [lia |].
  replace (- (k - 52 + e)) with ((52 - k) + - e) by lia.
  rewrite Z.pow_add_r by lia.
  set (S := 2 ^ (52 - k)). set (E := 2 ^ (- e)) in *.
  assert (HS : 0 < S) by (apply Z.pow_pos_nonneg; lia).
  assert (HE : 0 < E) by (apply Z.pow_pos_nonneg; lia).
  apply to_int_rnd_le; try lia; nia.
Qed.

End FloatBounds.

(** X10: the Resizer never enlarges a picture: for a max width W > 0, an
    output, when there is one, has the mode of the input, the smaller of
    W and the input's width as its width, and a height of at most the
    input's; a picture of width at most W comes back as it is, and a
    resized one has a height of at least 1. *)
Theorem resizer_never_enlarges :
  forall (W : Z) (img out : image) (s s' : state),
    0 < W -> 0 <= height img -> height img < 2 ^ 52 ->
    resizer W img s = (s', inr out) ->
    s' = s /\ mode out = mode img /\
    width out = Z.min (width img) W /\
    0 <= height out <= height img /\
    (width img <= W -> out = img) /\
    (W < width img -> 1 <= height out).
Proof.
  intros W img out s s' HW Hh Hh52 Hrun.
  destruct (Z.le_gt_cases (width img) W) as [Hle|Hgt].
  - unfold resizer in Hrun.
    destruct (Z.ltb_spec W (width img)) as [|_]; [lia |].
    injection Hrun as <- <-.
    repeat split; lia.
  - pose proof (FloatBounds.scaled_height_le W (width img) (height img)
                  HW Hgt Hh Hh52) as Hb.
    rewrite (resizer_wide W img s Hgt ltac:(lia)) in Hrun.
    unfold PIL.resize, lift in Hrun.
    destruct (Z.eqb_spec (width img) W) as [|_]; [lia |].
    cbn [andb] in Hrun.
    destruct (Z.ltb_spec W 1) as [|_]; [lia |].
    cbn [orb] in Hrun.
    destruct (Z.ltb_spec
                (scaled_height (height img) (Float.truediv W (width img))) 1)
      as [|H1]; [discriminate |].
    injection Hrun as <- <-. cbn [mode width height].
    repeat split; try lia.
Qed.

Lemma resizer_never_enlarges_witness :
  let out := mk_image "RGB" 2000 1333 (Resize 2000 1333 LANCZOS (Stored 1)) in
  width out = Z.min 3000 2000 /\ 0 <= height out <= 2000.
Proof.
  intros out.
  destruct (resizer_never_enlarges 2000 (mk_image "RGB" 3000 2000 (Stored 1))
              out (initial ∅) (initial ∅)
              ltac:(lia) ltac:(simpl; lia) ltac:(simpl; lia)
              ltac:(vm_compute; reflexivity))
    as (_ & _ & Hw & Hh & _).
  split; [exact Hw | exact Hh].
Defined.

(** ** What a success leaves on disk *)





(** * Properties of the gallery generator *)

Module GalleryFacts.
Import Gallery.

Lemma grid_refs_grid_items l files :
  forall i rest,
    grid_refs (grid_items i l files ++ rest) =
    combine (seq i (List.length files)) (List.map (pair l) files)
    ++ grid_refs rest.
Proof.
  induction files as [|f fs IH]; intros i rest; [reflexivity |].
  cbn [grid_items List.length seq List.map combine app grid_refs].
  now rewrite IH.
Qed.

Lemma grid_refs_array_entries l files rest :
  grid_refs (array_entries l files ++ rest) = grid_refs rest.
Proof. induction files as [|f fs IH]; [reflexivity | exact IH]. Qed.

Lemma array_refs_grid_items l files :
  forall i rest, array_refs (grid_items i l files ++ rest) = array_refs rest.
Proof.
  induction files as [|f fs IH]; intros i rest; [reflexivity |].
  cbn [grid_items app array_refs]. apply IH.
Qed.

Lemma array_refs_array_entries l files rest :
  array_refs (array_entries l files ++ rest) =
  List.map (pair l) files ++ array_refs rest.
Proof.
  induction files as [|f fs IH]; [reflexivity |].
  cbn [array_entries app array_refs List.map]. now rewrite IH.
Qed.

Lemma In_array_entries l f files :
  In f files -> In (PrintArrayEntry l f) (array_entries l files).
Proof.
  induction files as [|x fs IH]; [intros [] |].
  intros [-> | H]; [now left | right; auto].
Qed.

Lemma labels_of_grid_items L files :
  forall i l f, In (PrintItemImg l f) (grid_items i L files) -> l = L.
Proof.
  induction files as [|x fs IH]; intros i l f; [intros [] |].
  cbn [grid_items app]. intros [H|[H|[H|H]]]; try discriminate.
  - now injection H as <- _.
  - eauto.
Qed.

Lemma labels_of_array_entries L files l f :
  In (PrintArrayEntry l f) (array_entries L files) -> l = L.
Proof.
  induction files as [|x fs IH]; [intros [] |].
  intros [H|H]; [now injection H as <- _ | auto].
Qed.

Lemma no_entry_in_grid_items L files :
  forall i l f, ~ In (PrintArrayEntry l f) (grid_items i L files).
Proof.
  induction files as [|x fs IH]; intros i l f; [intros [] |].
  cbn [grid_items app]. intros [H|[H|[H|H]]]; try discriminate.
  exact (IH _ _ _ H).
Qed.

Lemma no_img_in_array_entries L files l f :
  ~ In (PrintItemImg l f) (array_entries L files).
Proof.
  induction files as [|x fs IH]; [intros [] |].
  intros [H|H]; [discriminate | auto].
Qed.

(** The call on a folder that can be listed. *)
Lemma generate_on_listing folder_path folder_name m es :
  m !! folder_path = Some (Dir true es) ->
  generate_photo_html folder_path folder_name m =
  match sorted_files (List.map fst es) with
  | [] => ([PrintNoImageFiles folder_path], inr tt)
  | f :: rest =>
      let files := f :: rest in
      let label := match folder_name with
                   | None => basename folder_path
                   | Some n => n
                   end in
      ([PrintFound (List.length files) folder_path; PrintGridHeader]
       ++ grid_items 0 label files
       ++ [PrintArrayHeader; PrintArrayOpen]
       ++ array_entries label files
       ++ [PrintArrayClose; PrintTotal (List.length files)],
       inr tt)
  end.
Proof.
  intros Hd. unfold generate_photo_html, os_listdir, bind, get_fs.
  cbn [fs initial]. rewrite Hd. cbn [snd ret].
  destruct (sorted_files (List.map fst es)); reflexivity.
Qed.

Lemma basename_after_slash d : basename (d +:+ "/") = "".
Proof.
  unfold basename.
  rewrite PyFacts.rfind_app by (cbn; lia).
  change (Py.rfind "/" "/") with 0. rewrite Z.add_0_r.
  replace (Z.to_nat (Z.of_nat (String.length d) + 1))
    with (S (String.length d)) by lia.
  induction d as [|a d IH]; [reflexivity | exact IH].
Qed.

End GalleryFacts.

(** X12: on a folder that can be listed, the page is consistent: the
    photo items of the grid are the entries of the array, in the same
    order, each item handing to the lightbox the position of its own path
    in the array; the names are those of the folder that end with one of
    the eight suffixes of line 14, in ascending order; and the two counts
    printed are their number. *)
Theorem gallery_grid_matches_array :
  forall folder_path folder_name (m : gmap string node) es,
    m !! folder_path = Some (Dir true es) ->
    let out := fst (Gallery.generate_photo_html folder_path folder_name m) in
    let entries := Gallery.array_refs out in
    let files := List.map snd entries in
    Gallery.grid_refs out = combine (seq 0 (List.length entries)) entries /\
    Sorted String.le files /\
    Permutation files
      (List.filter (fun f => Py.endswith f Gallery.image_extensions)
                   (List.map fst es)) /\
    (files <> [] ->
     In (Gallery.PrintFound (List.length files) folder_path) out /\
     In (Gallery.PrintTotal (List.length files)) out).
Proof.
  intros folder_path folder_name m es Hd out entries files.
  subst files entries out.
  rewrite (GalleryFacts.generate_on_listing _ folder_name _ _ Hd).
  pose proof (Sorted_merge_sort String.le
                (List.filter (fun f => Py.endswith f Gallery.image_extensions)
                             (List.map fst es))) as Hsorted.
  pose proof (merge_sort_Permutation String.le
                (List.filter (fun f => Py.endswith f Gallery.image_extensions)
                             (List.map fst es))) as Hperm.
  fold (Gallery.sorted_files (List.map fst es)) in Hsorted, Hperm.
  destruct (Gallery.sorted_files (List.map fst es)) as [|f rest] eqn:Hfiles.
  { cbn. split; [reflexivity |]. split; [exact Hsorted |].
    split; [exact Hperm |]. intros H. now destruct H. }
  cbv zeta. cbn [fst].
  set (label := match folder_name with
                | Some n => n
                | None => Gallery.basename folder_path
                end).
  set (fl := f :: rest) in *.
  assert (Harr : Gallery.array_refs
                   ([Gallery.PrintFound (List.length fl) folder_path;
                     Gallery.PrintGridHeader]
                    ++ Gallery.grid_items 0 label fl
                    ++ [Gallery.PrintArrayHeader; Gallery.PrintArrayOpen]
                    ++ Gallery.array_entries label fl
                    ++ [Gallery.PrintArrayClose;
                        Gallery.PrintTotal (List.length fl)])
                 = List.map (pair label) fl).
  { cbn [app Gallery.array_refs].
    rewrite GalleryFacts.array_refs_grid_items. cbn [app Gallery.array_refs].
    rewrite GalleryFacts.array_refs_array_entries. cbn [Gallery.array_refs].
    apply app_nil_r. }
  rewrite Harr.
  assert (Hsnd : List.map snd (List.map (pair label) fl) = fl).
  { rewrite List.map_map. cbn [snd]. apply List.map_id. }
  rewrite Hsnd, List.length_map.
  split; [| split; [exact Hsorted | split; [exact Hperm |]]].
  - cbn [app Gallery.grid_refs].
    rewrite GalleryFacts.grid_refs_grid_items. cbn [app Gallery.grid_refs].
    rewrite GalleryFacts.grid_refs_array_entries. cbn [Gallery.grid_refs].
    apply app_nil_r.
  - intros _. split; [now left |].
    apply in_or_app. right. apply in_or_app. right.
    apply in_or_app. right. apply in_or_app. right. right. now left.
Qed.

Lemma gallery_grid_matches_array_witness :
  let m : gmap string node :=
    {[ "pics" := Dir true [("b.jpg", mk_file 1 (picture "RGB" 1 1 1));
                           ("notes.txt", mk_file 1 (picture "RGB" 1 1 2));
                           ("Z.PNG", mk_file 1 (picture "RGB" 1 1 3));
                           ("a.webp", mk_file 1 (picture "RGB" 1 1 4))] ]} in
  Gallery.grid_refs (fst (Gallery.generate_photo_html "pics" None m)) =
    [(0%nat, ("pics", "Z.PNG")); (1%nat, ("pics", "a.webp"));
     (2%nat, ("pics", "b.jpg"))].
Proof.
  intros m.
  destruct (gallery_grid_matches_array "pics" None m
              [("b.jpg", mk_file 1 (picture "RGB" 1 1 1));
               ("notes.txt", mk_file 1 (picture "RGB" 1 1 2));
               ("Z.PNG", mk_file 1 (picture "RGB" 1 1 3));
               ("a.webp", mk_file 1 (picture "RGB" 1 1 4))]
              ltac:(vm_compute; reflexivity)) as (H & _).
  rewrite H. vm_compute. reflexivity.
Defined.

(** X13: the generator lists what the compressor writes: after a file's
    pipeline has succeeded into an output folder that can be listed, the
    page generated for that folder has an entry for the file's output
    name. *)
Theorem gallery_lists_compressor_output :
  forall enc input output (W q : Z) (i count : nat) filename
         (s s' : state) (o c : Z) eso label,
    pipeline enc input output W q i count filename s = (s', inr (o, c)) ->
    fs s !! output = Some (Dir true eso) ->
    In (Gallery.PrintArrayEntry label (output_name filename))
       (fst (Gallery.generate_photo_html output (Some label) (fs s'))).
Proof.
  intros enc input output W q i count filename s s' o c eso label Hrun Hd.
  apply pipeline_success in Hrun
    as (l & es & f & img & img1 & img2 & lo & eso' & _ & _ & _ & _ & _ & _ & _
        & Hdo & _ & ->).
  rewrite Hd in Hdo. injection Hdo as <- <-.
  set (written := mk_file c (inr (saved_picture img2 q true))).
  rewrite (GalleryFacts.generate_on_listing output (Some label) _
             (write_entry (output_name filename) written eso));
    [| cbn [fs after_success]; apply lookup_insert_eq].
  assert (Hin : In (output_name filename)
                  (Gallery.sorted_files
                     (List.map fst
                        (write_entry (output_name filename) written eso)))).
  { unfold Gallery.sorted_files.
    eapply Permutation_in;
      [symmetry; apply merge_sort_Permutation |].
    apply filter_In. split.
    - clear. induction eso as [|[n g] rest IH]; cbn; [now left |].
      destruct (String.eqb_spec n (output_name filename)) as [->|_];
        cbn; [now left | now right].
    - unfold Py.endswith. cbn [Gallery.image_extensions existsb].
      now rewrite output_name_ends_with_jpg. }
  destruct (Gallery.sorted_files
              (List.map fst (write_entry (output_name filename) written eso)))
    as [|x rest]; [destruct Hin |].
  cbv zeta. cbn [fst].
  apply in_or_app. right. apply in_or_app. right.
  apply in_or_app. right. apply in_or_app. left.
  now apply GalleryFacts.In_array_entries.
Qed.

Lemma gallery_lists_compressor_output_witness :
  let s := initial {[ "in" := Dir true [("photo.png", mk_file 9000 (picture "RGBA" 100 80 1))];
                      "out" := Dir true [] ]} in
  In (Gallery.PrintArrayEntry "out" "photo.jpg")
     (fst (Gallery.generate_photo_html "out" (Some "out")
             (fs (fst (pipeline demo_encode "in" "out" 2000 85 1 1 "photo.png" s))))).
Proof.
  intros s.
  exact (gallery_lists_compressor_output demo_encode "in" "out" 2000 85 1 1
           "photo.png" s
           (fst (pipeline demo_encode "in" "out" 2000 85 1 1 "photo.png" s))
           9000 1400 [] "out"
           ltac:(vm_compute; reflexivity) ltac:(vm_compute; reflexivity)).
Defined.

Lemma label_after_trailing_slash :
  forall (d : string) (m : gmap string node) (l f : string),
    let out := fst (Gallery.generate_photo_html (d +:+ "/") None m) in
    In (Gallery.PrintItemImg l f) out \/ In (Gallery.PrintArrayEntry l f) out ->
    l = "".
Proof.
  intros d m l f out. subst out.
  unfold Gallery.generate_photo_html.
  destruct (snd (os_listdir (d +:+ "/") (initial m))) as [e|names].
  { destruct (catches ExceptFileNotFoundError e); cbn;
      intros [H|H]; try destruct H as [H|H]; try discriminate; destruct H. }
  cbv zeta. destruct (Gallery.sorted_files names) as [|x rest].
  { cbn. intros [[H|[]]|[H|[]]]; discriminate. }
  rewrite GalleryFacts.basename_after_slash. cbn [fst].
  assert (Hfew : forall (y : Gallery.line) a b,
            In y [a; b] -> y = a \/ y = b).
  { intros y a b [H|[H|[]]]; auto. }
  intros [H|H].
  - apply in_app_or in H as [H|H];
      [apply Hfew in H as [H|H]; discriminate |].
    apply in_app_or in H as [H|H];
      [exact (GalleryFacts.labels_of_grid_items _ _ _ _ _ H) |].
    apply in_app_or in H as [H|H];
      [apply Hfew in H as [H|H]; discriminate |].
    apply in_app_or in H as [H|H];
      [destruct (GalleryFacts.no_img_in_array_entries _ _ _ _ H) |].
    apply Hfew in H as [H|H]; discriminate.
  - apply in_app_or in H as [H|H];
      [apply Hfew in H as [H|H]; discriminate |].
    apply in_app_or in H as [H|H];
      [destruct (GalleryFacts.no_entry_in_grid_items _ _ _ _ _ H) |].
    apply in_app_or in H as [H|H];
      [apply Hfew in H as [H|H]; discriminate |].
    apply in_app_or in H as [H|H];
      [exact (GalleryFacts.labels_of_array_entries _ _ _ _ H) |].
    apply Hfew in H as [H|H]; discriminate.
Qed.

(** X14: with no folder name given, a folder path that ends with the
    separator gets the empty label of [os.path.basename]: every path of
    the page, in the grid and in the array, is then the separator and the
    file name. *)
Theorem gallery_label_after_trailing_slash :
  forall (d : string) (m : gmap string node),
    Forall (Gallery.labelled "")
           (fst (Gallery.generate_photo_html (d +:+ "/") None m)).
Proof.
  intros d m. apply List.Forall_forall. intros ln Hin.
  destruct ln; try exact I; cbn.
  - apply (label_after_trailing_slash d m folder_name filename). now left.
  - apply (label_after_trailing_slash d m folder_name filename). now right.
Qed.

(** X15: without a page: a missing folder gets the message of line 20 and
    a normal return; a path that cannot be listed, or is not a folder,
    ends the call with the exception of [os.listdir] and nothing printed;
    a folder with no selected name gets the message of line 24. *)
Theorem gallery_without_images :
  forall folder_path folder_name (m : gmap string node),
    (m !! folder_path = None ->
     Gallery.generate_photo_html folder_path folder_name m =
       ([Gallery.PrintFolderNotFound folder_path], inr tt)) /\
    (forall es, m !! folder_path = Some (Dir false es) ->
     Gallery.generate_photo_html folder_path folder_name m =
       ([], inl (PermissionError folder_path))) /\
    (m !! folder_path = Some NotDir ->
     Gallery.generate_photo_html folder_path folder_name m =
       ([], inl (NotADirectoryError folder_path))) /\
    (forall es, m !! folder_path = Some (Dir true es) ->
     List.filter (fun f => Py.endswith f Gallery.image_extensions)
                 (List.map fst es) = [] ->
     Gallery.generate_photo_html folder_path folder_name m =
       ([Gallery.PrintNoImageFiles folder_path], inr tt)).
Proof.
  intros folder_path folder_name m.
  unfold Gallery.generate_photo_html, os_listdir, bind, get_fs.
  cbn [fs initial].
  repeat split.
  - intros ->. reflexivity.
  - intros es ->. reflexivity.
  - intros ->. reflexivity.
  - intros es -> Hnone. cbn [snd ret]. unfold Gallery.sorted_files.
    rewrite Hnone. reflexivity.
Qed.

Lemma gallery_without_images_witness :
  Gallery.generate_photo_html "nowhere" None ∅ =
    ([Gallery.PrintFolderNotFound "nowhere"], inr tt) /\
  Gallery.generate_photo_html "docs" None
    {[ "docs" := Dir true [("notes.txt", mk_file 1 (picture "RGB" 1 1 1))] ]} =
    ([Gallery.PrintNoImageFiles "docs"], inr tt).
Proof.
  split.
  - apply (gallery_without_images "nowhere" None ∅). reflexivity.
  - apply (gallery_without_images "docs" None
             {[ "docs" := Dir true [("notes.txt", mk_file 1 (picture "RGB" 1 1 1))] ]}
             : _ /\ _ /\ _ /\ _) with
      (es := [("notes.txt", mk_file 1 (picture "RGB" 1 1 1))]);
      reflexivity.
Defined.
